(** * cf_tools: the CSV aggregation service (csv-service.ts)

    A shallow embedding of the parsing / aggregation / output-row pipeline of
    the 5G CSV analyzer, and the properties its specification states about it.

    Conventions of the embedding.
    - A JavaScript [number] that carries measured data (the sums and counts of
      an [AggBucket], the result of [parseNumeric]) is an IEEE-754 binary64
      value: Rocq's primitive [float], whose [+], [/], [<=] are the
      operations the JavaScript engine performs.
    - The row counters ([processedRows], [skippedRows], the values of
      [invalidFieldStats]) start at zero and only ever grow by one per row;
      they are modelled in [N] (a double holds them exactly for any file of
      fewer than 2^53 rows).
    - A JavaScript string is a [string] holding its UTF-8 bytes.
    - Functions of the platform and of third-party packages (Number(),
      toFixed, toString, localeCompare, dayjs, node:path, node:fs, Date.now)
      are parameters of the sections that use them; [Reference] below gives
      executable instances used in the examples. *)

From Stdlib Require Import ZArith NArith Floats DecimalString Ascii String.
From stdpp Require Import base option list gmap strings sorting.

Local Open Scope string_scope.

(** ** JavaScript strings *)

Module JsString.

Definition utf8 (bs : list N) : string :=
  string_of_list_ascii (map ascii_of_N bs).

(** The code points String.prototype.trim removes (WhiteSpace and
    LineTerminator of ECMA-262), as UTF-8 byte sequences: TAB, LF, VT, FF,
    CR, SP, U+00A0, U+1680, U+2000..U+200A, U+2028, U+2029, U+202F, U+205F,
    U+3000, U+FEFF. *)
Definition whiteSpace : list string :=
  [ utf8 [9]; utf8 [10]; utf8 [11]; utf8 [12]; utf8 [13]; utf8 [32];
    utf8 [194; 160]; utf8 [225; 154; 128];
    utf8 [226; 128; 128]; utf8 [226; 128; 129]; utf8 [226; 128; 130];
    utf8 [226; 128; 131]; utf8 [226; 128; 132]; utf8 [226; 128; 133];
    utf8 [226; 128; 134]; utf8 [226; 128; 135]; utf8 [226; 128; 136];
    utf8 [226; 128; 137]; utf8 [226; 128; 138];
    utf8 [226; 128; 168]; utf8 [226; 128; 169]; utf8 [226; 128; 175];
    utf8 [226; 129; 159]; utf8 [227; 128; 128]; utf8 [239; 187; 191] ]%N.

Fixpoint dropPrefix (p s : string) : option string :=
  match p, s with
  | EmptyString, _ => Some s
  | String a p', String b s' => if Ascii.eqb a b then dropPrefix p' s' else None
  | String _ _, EmptyString => None
  end.

Fixpoint dropAny (ps : list string) (s : string) : option string :=
  match ps with
  | [] => None
  | p :: ps' =>
      match dropPrefix p s with
      | Some r => Some r
      | None => dropAny ps' s
      end
  end.

Fixpoint dropLeading (ps : list string) (fuel : nat) (s : string) : string :=
  match fuel with
  | O => s
  | S fuel' =>
      match dropAny ps s with
      | Some r => dropLeading ps fuel' r
      | None => s
      end
  end.

Definition trimStart (s : string) : string :=
  dropLeading whiteSpace (String.length s) s.

Definition trimEnd (s : string) : string :=
  String.rev (dropLeading (map String.rev whiteSpace) (String.length s) (String.rev s)).

(** [s.trim()] *)
Definition trim (s : string) : string := trimEnd (trimStart s).

(** [s.replace(/c/g, '')] for a single character [c]. *)
Fixpoint removeChar (c : ascii) (s : string) : string :=
  match s with
  | EmptyString => EmptyString
  | String a s' => if Ascii.eqb a c then removeChar c s' else String a (removeChar c s')
  end.

(** [!s] for a string: only the empty string is falsy. *)
Definition isEmpty (s : string) : bool :=
  match s with EmptyString => true | String _ _ => false end.

(** [s.padStart(n, '0')] *)
Definition padStart0 (n : nat) (s : string) : string :=
  string_of_list_ascii (repeat "0"%char (n - String.length s)) ++ s.

(** [String(n)] for a non-negative integer. *)
Definition ofN (n : N) : string := NilEmpty.string_of_uint (N.to_uint n).

End JsString.
Import JsString.

(** ** Aggregation buckets *)

(** The interface [AggBucket]: the (day, network) key and, per measurement,
    a running sum (and a count of valid observations for averaged fields). *)
Record AggBucket := mkBucket {
  date : string;
  network : string;
  flowSum : float;
  maxUserSum : float;
  ulPrbSum : float;
  ulPrbCount : float;
  dlPrbSum : float;
  dlPrbCount : float;
  ulRateSum : float;
  ulRateCount : float;
  dlRateSum : float;
  dlRateCount : float;
  accessRateSum : float;
  accessRateCount : float;
  dropRateSum : float;
  dropRateCount : float;
  handoverRateSum : float;
  handoverRateCount : float;
  interferenceSum : float;
  interferenceCount : float
}.

(** The numeric property names of an [AggBucket]: the values [addAvgField]
    receives for its [keyof AggBucket] arguments. *)
Inductive BucketKey :=
  | K_flowSum | K_maxUserSum | K_ulPrbSum
  | K_ulPrbCount | K_dlPrbSum | K_dlPrbCount
  | K_ulRateSum | K_ulRateCount | K_dlRateSum
  | K_dlRateCount | K_accessRateSum | K_accessRateCount
  | K_dropRateSum | K_dropRateCount | K_handoverRateSum
  | K_handoverRateCount | K_interferenceSum | K_interferenceCount.

Global Instance BucketKey_eq_dec : EqDecision BucketKey.
Proof. solve_decision. Defined.

(** [bucket[key]] *)
Definition getKey (bucket : AggBucket) (key : BucketKey) : float :=
  match key with
  | K_flowSum => flowSum bucket
  | K_maxUserSum => maxUserSum bucket
  | K_ulPrbSum => ulPrbSum bucket
  | K_ulPrbCount => ulPrbCount bucket
  | K_dlPrbSum => dlPrbSum bucket
  | K_dlPrbCount => dlPrbCount bucket
  | K_ulRateSum => ulRateSum bucket
  | K_ulRateCount => ulRateCount bucket
  | K_dlRateSum => dlRateSum bucket
  | K_dlRateCount => dlRateCount bucket
  | K_accessRateSum => accessRateSum bucket
  | K_accessRateCount => accessRateCount bucket
  | K_dropRateSum => dropRateSum bucket
  | K_dropRateCount => dropRateCount bucket
  | K_handoverRateSum => handoverRateSum bucket
  | K_handoverRateCount => handoverRateCount bucket
  | K_interferenceSum => interferenceSum bucket
  | K_interferenceCount => interferenceCount bucket
  end.

(** [bucket[key] = v]: every other property keeps its value. *)
Definition setKey (b : AggBucket) (key : BucketKey) (v : float) : AggBucket :=
  let at_ k := if decide (key = k) then v else getKey b k in
  mkBucket (date b) (network b)
    (at_ K_flowSum) (at_ K_maxUserSum)
    (at_ K_ulPrbSum) (at_ K_ulPrbCount)
    (at_ K_dlPrbSum) (at_ K_dlPrbCount)
    (at_ K_ulRateSum) (at_ K_ulRateCount)
    (at_ K_dlRateSum) (at_ K_dlRateCount)
    (at_ K_accessRateSum) (at_ K_accessRateCount)
    (at_ K_dropRateSum) (at_ K_dropRateCount)
    (at_ K_handoverRateSum) (at_ K_handoverRateCount)
    (at_ K_interferenceSum) (at_ K_interferenceCount).

Definition createEmptyBucket (date network : string) : AggBucket :=
  mkBucket date network 0 0 0 0 0 0 0 0 0 0 0 0 0 0 0 0 0 0.

(** [mergeBucket(target, source)] updates [target] in place and leaves
    [source] alone; the embedding returns the updated target. *)
Definition mergeBucket (target source : AggBucket) : AggBucket :=
  mkBucket (date target) (network target)
    (flowSum target + flowSum source)
    (maxUserSum target + maxUserSum source)
    (ulPrbSum target + ulPrbSum source)
    (ulPrbCount target + ulPrbCount source)
    (dlPrbSum target + dlPrbSum source)
    (dlPrbCount target + dlPrbCount source)
    (ulRateSum target + ulRateSum source)
    (ulRateCount target + ulRateCount source)
    (dlRateSum target + dlRateSum source)
    (dlRateCount target + dlRateCount source)
    (accessRateSum target + accessRateSum source)
    (accessRateCount target + accessRateCount source)
    (dropRateSum target + dropRateSum source)
    (dropRateCount target + dropRateCount source)
    (handoverRateSum target + handoverRateSum source)
    (handoverRateCount target + handoverRateCount source)
    (interferenceSum target + interferenceSum source)
    (interferenceCount target + interferenceCount source).

(** [addAvgField(bucket, fieldKey, countKey, value)]: the updated bucket and
    the boolean the function returns. *)
Definition addAvgField (bucket : AggBucket) (fieldKey countKey : BucketKey)
    (value : option float) : AggBucket * bool :=
  match value with
  | None => (bucket, false)
  | Some value =>
      let current := getKey bucket fieldKey in
      let currentCount := getKey bucket countKey in
      let bucket := setKey bucket fieldKey (current + value) in
      let bucket := setKey bucket countKey (currentCount + 1) in
      (bucket, true)
  end.

(** [OutputRow]: the twelve output columns, in the order of
    [OUTPUT_COLUMNS]. *)
Record OutputRow := mkRow {
  r_time : string;          (* 时间 *)
  r_network : string;       (* 网络 *)
  r_flow : string;          (* 5G总流量(GB) *)
  r_maxUser : string;       (* 5G最大用户数 *)
  r_ulPrb : string;         (* 5G上行PRB利用率(%) *)
  r_dlPrb : string;         (* 5G下行PRB利用率(%) *)
  r_ulRate : string;        (* 5G上行体验速率(Mbps) *)
  r_dlRate : string;        (* 5G下行体验速率(Mbps) *)
  r_accessRate : string;    (* 5G无线接通率(%) *)
  r_dropRate : string;      (* 5G无线掉线率(%) *)
  r_handoverRate : string;  (* 5G切换成功率(%) *)
  r_interference : string   (* 5G上行平均干扰(dBm) *)
}.


Definition GRAND_TOTAL_LABEL : string := "总计".

(** ** JavaScript [Map] with string keys

    A [Map] iterates in insertion order, and [set] on a key already present
    keeps the key's position: an association list. *)
Module JsMap.

Fixpoint get {V : Type} (m : list (string * V)) (k : string) : option V :=
  match m with
  | [] => None
  | (k', v) :: m' => if String.eqb k' k then Some v else get m' k
  end.

Fixpoint set {V : Type} (m : list (string * V)) (k : string) (v : V)
    : list (string * V) :=
  match m with
  | [] => [(k, v)]
  | (k', v') :: m' =>
      if String.eqb k' k then (k', v) :: m' else (k', v') :: set m' k v
  end.

(** [[...m.values()]] *)
Definition values {V : Type} (m : list (string * V)) : list V := snd <$> m.

(** [[...m.entries()]] is the list itself. *)

End JsMap.

(** ** Rows, column indices and the aggregation state *)

(** [row[i]]: [undefined] (here [None]) when [i] is negative or past the end
    of the row. *)
Definition cell (row : list string) (i : Z) : option string :=
  if (i <? 0)%Z then None else row !! Z.to_nat i.

(** [colIndex]: the position of each used column in the header, [-1] when the
    header lacks it. *)
Record ColIndex := mkColIndex {
  c_time : Z; c_network : Z; c_flow : Z; c_maxUser : Z;
  c_ulPrb : Z; c_dlPrb : Z; c_ulRate : Z; c_dlRate : Z;
  c_accessRate : Z; c_dropRate : Z; c_handoverRate : Z; c_interference : Z
}.

(** The ten numeric measurements of a row. *)
Inductive NumField :=
  | Flow | MaxUser | UlPrb | DlPrb | UlRate | DlRate
  | AccessRate | DropRate | HandoverRate | Interference.

Global Instance NumField_eq_dec : EqDecision NumField.
Proof. solve_decision. Defined.

Definition allNumFields : list NumField :=
  [Flow; MaxUser; UlPrb; DlPrb; UlRate; DlRate;
   AccessRate; DropRate; HandoverRate; Interference].

(** The canonical column name of a measurement: its key in
    [invalidFieldStats]. *)
Definition columnName (f : NumField) : string :=
  match f with
  | Flow => "5G总流量(GB)"
  | MaxUser => "5G最大用户数"
  | UlPrb => "5G上行PRB利用率(%)"
  | DlPrb => "5G下行PRB利用率(%)"
  | UlRate => "5G上行体验速率(Mbps)"
  | DlRate => "5G下行体验速率(Mbps)"
  | AccessRate => "5G无线接通率(%)"
  | DropRate => "5G无线掉线率(%)"
  | HandoverRate => "5G切换成功率(%)"
  | Interference => "5G上行平均干扰(dBm)"
  end.

Definition sumKey (f : NumField) : BucketKey :=
  match f with
  | Flow => K_flowSum | MaxUser => K_maxUserSum
  | UlPrb => K_ulPrbSum | DlPrb => K_dlPrbSum
  | UlRate => K_ulRateSum | DlRate => K_dlRateSum
  | AccessRate => K_accessRateSum | DropRate => K_dropRateSum
  | HandoverRate => K_handoverRateSum | Interference => K_interferenceSum
  end.

(** The two sum-only measurements have no count. *)
Definition countKey (f : NumField) : option BucketKey :=
  match f with
  | Flow | MaxUser => None
  | UlPrb => Some K_ulPrbCount | DlPrb => Some K_dlPrbCount
  | UlRate => Some K_ulRateCount | DlRate => Some K_dlRateCount
  | AccessRate => Some K_accessRateCount | DropRate => Some K_dropRateCount
  | HandoverRate => Some K_handoverRateCount
  | Interference => Some K_interferenceCount
  end.

Definition colOf (ci : ColIndex) (f : NumField) : Z :=
  match f with
  | Flow => c_flow ci | MaxUser => c_maxUser ci
  | UlPrb => c_ulPrb ci | DlPrb => c_dlPrb ci
  | UlRate => c_ulRate ci | DlRate => c_dlRate ci
  | AccessRate => c_accessRate ci | DropRate => c_dropRate ci
  | HandoverRate => c_handoverRate ci | Interference => c_interference ci
  end.

(** What [parseDataRows] accumulates, and its [isHeader] flag. *)
Record AggState := mkState {
  buckets : list (string * AggBucket);
  processedRows : N;
  skippedRows : N;
  invalidFieldStats : gmap string N;
  isHeader : bool
}.

(** [invalidFieldStats[name] += 1] *)
Definition countInvalid (name : string) (stats : gmap string N) : gmap string N :=
  <[name := (stats !!! name + 1)%N]> stats.

(** The object literal [invalidFieldStats] starts from. *)
Definition initialInvalidFieldStats : gmap string N :=
  list_to_map
    [ ("时间", 0%N); ("网络", 0%N);
      ("5G总流量(GB)", 0%N); ("5G最大用户数", 0%N);
      ("5G上行PRB利用率(%)", 0%N); ("5G下行PRB利用率(%)", 0%N);
      ("5G上行体验速率(Mbps)", 0%N); ("5G下行体验速率(Mbps)", 0%N);
      ("5G无线接通率(%)", 0%N); ("5G无线掉线率(%)", 0%N);
      ("5G切换成功率(%)", 0%N); ("5G上行平均干扰(dBm)", 0%N) ].

Definition initialState : AggState :=
  mkState [] 0 0 initialInvalidFieldStats true.

(** The two shapes of per-measurement statement in the row loop: the inline
    [if (v === null) stats[name] += 1 else bucket.key += v] of the sum-only
    fields, and [if (!addAvgField(...)) stats[name] += 1] of the averaged
    ones. *)
Definition sumStatement (key : BucketKey) (name : string) (value : option float)
    (acc : AggBucket * gmap string N) : AggBucket * gmap string N :=
  match value with
  | None => (acc.1, countInvalid name acc.2)
  | Some v => (setKey acc.1 key (getKey acc.1 key + v), acc.2)
  end.

Definition avgStatement (fieldKey countKey : BucketKey) (name : string)
    (value : option float) (acc : AggBucket * gmap string N)
    : AggBucket * gmap string N :=
  let r := addAvgField acc.1 fieldKey countKey value in
  if negb r.2 then (r.1, countInvalid name acc.2) else (r.1, acc.2).

(** dayjs values, reduced to the calendar date [format('YYYY-MM-DD')] prints. *)
Record Dayjs := mkDayjs { dj_year : N; dj_month : N; dj_date : N }.

Definition format_YYYY_MM_DD (d : Dayjs) : string :=
  padStart0 4 (ofN (dj_year d)) ++ "-" ++
  padStart0 2 (ofN (dj_month d)) ++ "-" ++
  padStart0 2 (ofN (dj_date d)).

Definition DATE_PATTERNS : list string :=
  [ "YYYY-MM-DD HH:mm:ss"; "YYYY/MM/DD HH:mm:ss";
    "YYYY-MM-DD HH:mm"; "YYYY/MM/DD HH:mm";
    "YYYY-MM-DD"; "YYYY/MM/DD"; "YYYYMMDDHHmmss"; "YYYYMMDD" ].

(** ** JavaScript arrays: [sort] *)

Module JsArray.

(** [Array.prototype.sort(compareFn)] is a stable sort: elements that
    compare equal keep their order.  Insertion from the right, placing an
    element before the first one it does not exceed, computes that
    result. *)
Fixpoint insertSorted {A : Type} (compareFn : A -> A -> Z) (x : A) (l : list A)
    : list A :=
  match l with
  | [] => [x]
  | y :: l' =>
      if (compareFn x y <=? 0)%Z then x :: y :: l'
      else y :: insertSorted compareFn x l'
  end.

Definition sort {A : Type} (compareFn : A -> A -> Z) (l : list A) : list A :=
  foldr (insertSorted compareFn) [] l.

(** [x] may stand before [y]: [compareFn(x, y) <= 0]. *)
Definition inOrder {A : Type} (compareFn : A -> A -> Z) (x y : A) : Prop :=
  (compareFn x y <= 0)%Z.

End JsArray.

(** ** Output options *)

(** [AggregationOutputOptions]: every property is optional. *)
Record AggregationOutputOptions := mkOptions {
  includeDailySubtotalRows : option bool;
  includeGrandTotalRow : option bool;
  blankDateForDetailRowsWhenSubtotalEnabled : option bool
}.


(** [errorCode] of an [AggregationRunResult], [OUTPUT_EXISTS] of the earlier
    revision included. *)
Inductive ErrorCode :=
  | FILE_NOT_FOUND | MISSING_COLUMNS | OUTPUT_EXISTS
  | PARSE_FAILED | WRITE_FAILED | UNKNOWN.

(** ** The service *)

Section CsvService.

(** *** Value parsers and formatters *)

(** [Number(s)]: the platform's string-to-number conversion. *)
Variable Number : string -> float.
(** [x.toFixed(d)] and [x.toString()] on numbers. *)
Variable toFixed : float -> N -> string.
Variable numToString : float -> string.

(** [parseNumeric]; [None] as argument is [undefined], [None] as result is
    [null]. *)
Definition parseNumeric (value : option string) : option float :=
  match value with
  | None => None
  | Some value =>
      let cleaned := removeChar "%" (removeChar "," (trim value)) in
      if isEmpty cleaned then None
      else
        let num := Number cleaned in
        if negb (is_finite num) then None else Some num
  end.

Definition formatNumber (value : float) : string :=
  if negb (is_finite value) then ""
  else numToString (Number (toFixed value 6)).

Definition formatAverage (sum count : float) : string :=
  if (count <=? 0)%float then ""
  else formatNumber (sum / count).

(** [toOutputRow(item, dateValue?, networkValue?)]; an omitted argument is
    [None] and [??] falls back to the bucket's own value. *)
Definition toOutputRow (item : AggBucket) (dateValue networkValue : option string)
    : OutputRow :=
  mkRow
    (default (date item) dateValue)
    (default (network item) networkValue)
    (formatNumber (flowSum item))
    (formatNumber (maxUserSum item))
    (formatAverage (ulPrbSum item) (ulPrbCount item))
    (formatAverage (dlPrbSum item) (dlPrbCount item))
    (formatAverage (ulRateSum item) (ulRateCount item))
    (formatAverage (dlRateSum item) (dlRateCount item))
    (formatAverage (accessRateSum item) (accessRateCount item))
    (formatAverage (dropRateSum item) (dropRateCount item))
    (formatAverage (handoverRateSum item) (handoverRateCount item))
    (formatAverage (interferenceSum item) (interferenceCount item)).

(** *** Dates *)

(** [dayjs(raw, pattern, true)] and [dayjs(raw)]; [None] when the result is
    not [isValid()]. *)
Variable dayjsStrict : string -> string -> option Dayjs.
Variable dayjsAuto : string -> option Dayjs.

Fixpoint firstValid (raw : string) (patterns : list string) : option Dayjs :=
  match patterns with
  | [] => None
  | pattern :: rest =>
      match dayjsStrict raw pattern with
      | Some parsed => Some parsed
      | None => firstValid raw rest
      end
  end.

Definition parseDateToDay (value : string) : option string :=
  let raw := trim value in
  if isEmpty raw then None
  else
    match firstValid raw DATE_PATTERNS with
    | Some parsed => Some (format_YYYY_MM_DD parsed)
    | None =>
        match dayjsAuto raw with
        | Some fallback => Some (format_YYYY_MM_DD fallback)
        | None => None
        end
    end.

(** *** The row loop of [parseDataRows] *)

(** A row dropped for its time or network field. *)
Definition skipRow (name : string) (st : AggState) : AggState :=
  mkState (buckets st) (processedRows st + 1) (skippedRows st + 1)
    (countInvalid name (invalidFieldStats st)) (isHeader st).

(** The loop body for a data row (everything after the header test). *)
Definition processDataRow (colIndex : ColIndex) (st : AggState)
    (row : list string) : AggState :=
  let timeRaw := default "" (cell row (c_time colIndex)) in
  let networkRaw := trim (default "" (cell row (c_network colIndex))) in
  match parseDateToDay timeRaw with
  | None => skipRow "时间" st
  | Some day =>
      if isEmpty day then skipRow "时间" st
      else if isEmpty networkRaw then skipRow "网络" st
      else
        let key := day ++ "__" ++ networkRaw in
        let bucket :=
          default (createEmptyBucket day networkRaw) (JsMap.get (buckets st) key) in
        let num i := parseNumeric (cell row i) in
        let acc := (bucket, invalidFieldStats st) in
        let acc := sumStatement K_flowSum "5G总流量(GB)" (num (c_flow colIndex)) acc in
        let acc := sumStatement K_maxUserSum "5G最大用户数" (num (c_maxUser colIndex)) acc in
        let acc := avgStatement K_ulPrbSum K_ulPrbCount "5G上行PRB利用率(%)"
                     (num (c_ulPrb colIndex)) acc in
        let acc := avgStatement K_dlPrbSum K_dlPrbCount "5G下行PRB利用率(%)"
                     (num (c_dlPrb colIndex)) acc in
        let acc := avgStatement K_ulRateSum K_ulRateCount "5G上行体验速率(Mbps)"
                     (num (c_ulRate colIndex)) acc in
        let acc := avgStatement K_dlRateSum K_dlRateCount "5G下行体验速率(Mbps)"
                     (num (c_dlRate colIndex)) acc in
        let acc := avgStatement K_accessRateSum K_accessRateCount "5G无线接通率(%)"
                     (num (c_accessRate colIndex)) acc in
        let acc := avgStatement K_dropRateSum K_dropRateCount "5G无线掉线率(%)"
                     (num (c_dropRate colIndex)) acc in
        let acc := avgStatement K_handoverRateSum K_handoverRateCount "5G切换成功率(%)"
                     (num (c_handoverRate colIndex)) acc in
        let acc := avgStatement K_interferenceSum K_interferenceCount
                     "5G上行平均干扰(dBm)" (num (c_interference colIndex)) acc in
        mkState (JsMap.set (buckets st) key acc.1) (processedRows st + 1)
          (skippedRows st) acc.2 (isHeader st)
  end.

(** One iteration of [while ((row = parser.read()) !== null)]. *)
Definition processRow (colIndex : ColIndex) (st : AggState) (row : list string)
    : AggState :=
  if isHeader st then
    mkState (buckets st) (processedRows st) (skippedRows st)
      (invalidFieldStats st) false
  else processDataRow colIndex st row.

(** [parseDataRows] on the records the CSV parser delivers, in order. *)
Definition parseDataRows (colIndex : ColIndex) (rows : list (list string))
    : AggState :=
  foldl (processRow colIndex) initialState rows.

(** *** Output rows *)

(** [a.localeCompare(b)]: negative, zero or positive. *)
Variable localeCompare : string -> string -> Z.

(** The comparator of the first [sort] in [buildOutputRows]. *)
Definition compareBuckets (a b : AggBucket) : Z :=
  if String.eqb (date a) (date b) then localeCompare (network a) (network b)
  else localeCompare (date a) (date b).

Definition compareNetworks (a b : AggBucket) : Z :=
  localeCompare (network a) (network b).

Definition compareEntries (a b : string * list AggBucket) : Z :=
  localeCompare a.1 b.1.

(** The [byDate] map: each bucket is pushed onto the list of its date. *)
Definition groupByDate (sortedBuckets : list AggBucket)
    : list (string * list AggBucket) :=
  foldl
    (fun byDate item =>
       let list := default [] (JsMap.get byDate (date item)) in
       JsMap.set byDate (date item) (list ++ [item])%list)
    [] sortedBuckets.

Definition optionFlag (options : option AggregationOutputOptions)
    (get : AggregationOutputOptions -> option bool) (dflt : bool) : bool :=
  match options with
  | Some o => default dflt (get o)
  | None => dflt
  end.

(** The rows pushed for one entry of [byDate]: the subtotal, merged from
    [dateBuckets] in the order they have before the in-place sort, then the
    detail rows in network order. *)
Definition dateGroupRows (blankDate : bool) (entry : string * list AggBucket)
    : list OutputRow :=
  let day := entry.1 in
  let dateBuckets := entry.2 in
  let subtotal := foldl mergeBucket (createEmptyBucket day "") dateBuckets in
  toOutputRow subtotal (Some day) (Some "") ::
  ((fun item =>
      toOutputRow item (Some (if blankDate then "" else day)) (Some (network item)))
     <$> JsArray.sort compareNetworks dateBuckets).

(** [buildOutputRows(buckets, options)] *)
Definition buildOutputRows (buckets : list (string * AggBucket))
    (options : option AggregationOutputOptions) : list OutputRow :=
  let sortedBuckets := JsArray.sort compareBuckets (JsMap.values buckets) in
  let includeDailySubtotalRows := optionFlag options includeDailySubtotalRows false in
  let includeGrandTotalRow := optionFlag options includeGrandTotalRow false in
  let blankDateForDetailRowsWhenSubtotalEnabled :=
    optionFlag options blankDateForDetailRowsWhenSubtotalEnabled true in
  let outputRows :=
    if negb includeDailySubtotalRows then
      (fun item => toOutputRow item None None) <$> sortedBuckets
    else
      flat_map (dateGroupRows blankDateForDetailRowsWhenSubtotalEnabled)
        (JsArray.sort compareEntries (groupByDate sortedBuckets)) in
  if includeGrandTotalRow then
    let grand := foldl mergeBucket (createEmptyBucket "" "") sortedBuckets in
    (outputRows ++ [toOutputRow grand (Some GRAND_TOTAL_LABEL) (Some "")])%list
  else outputRows.



(** *** Output path *)

(** node:path and node:fs; [existsSync] is the state of the disk when the
    path is chosen, [now] the value of [Date.now()]. *)
Variable dirname extname : string -> string.
Variable basename : string -> string -> string.
Variable join : string -> string -> string.
Variable existsSync : string -> bool.
Variable now : N.

Definition getOutputBasePath (inputPath : string) : string * string * string :=
  let dir := dirname inputPath in
  let ext := if isEmpty (extname inputPath) then ".csv" else extname inputPath in
  let fileName := basename inputPath (extname inputPath) in
  (dir, ext, fileName).

Definition getOutputPath (inputPath : string) : string :=
  let '(dir, ext, fileName) := getOutputBasePath inputPath in
  join dir (fileName ++ "-统计" ++ ext).

Definition numberedPath (dir ext fileName : string) (index : N) : string :=
  join dir (fileName ++ "-统计(" ++ ofN index ++ ")" ++ ext).

(** [while (index < 10000) { ... index += 1 }]; [fuel] bounds the number of
    iterations and [None] is the exit of the loop. *)
Fixpoint scanCandidates (dir ext fileName : string) (fuel : nat) (index : N)
    : option string :=
  match fuel with
  | O => None
  | S fuel' =>
      if (index <? 10000)%N then
        let candidate := numberedPath dir ext fileName index in
        if negb (existsSync candidate) then Some candidate
        else scanCandidates dir ext fileName fuel' (index + 1)
      else None
  end.

Definition getNextAvailableOutputPath (inputPath : string) : string :=
  let '(dir, ext, fileName) := getOutputBasePath inputPath in
  let firstPath := join dir (fileName ++ "-统计" ++ ext) in
  if negb (existsSync firstPath) then firstPath
  else
    match scanCandidates dir ext fileName (N.to_nat 10000) 1 with
    | Some candidate => candidate
    | None => numberedPath dir ext fileName now
    end.

(** The earlier revision of [runCsvAggregation] (the copy of the service
    under src/preload/index.ts) takes [getOutputPath] and gives up with
    [OUTPUT_EXISTS] when that file is there. *)
Definition outputPathOrAbort (inputPath : string) : ErrorCode + string :=
  let outputPath := getOutputPath inputPath in
  if existsSync outputPath then inl OUTPUT_EXISTS else inr outputPath.

(** ** Properties *)

(** *** Strings, arrays and maps *)

Section SortFacts.

Context {A : Type} (compareFn : A -> A -> Z).

Local Abbreviation leq := (JsArray.inOrder compareFn).

Lemma insertSorted_perm (x : A) (l : list A) :
  JsArray.insertSorted compareFn x l ≡ₚ x :: l.
Proof.
  induction l as [|y l IH]; simpl; [done|].
  destruct (compareFn x y <=? 0)%Z; [done|].
  rewrite IH. apply Permutation_swap.
Qed.

Lemma sort_cons (x : A) (l : list A) :
  JsArray.sort compareFn (x :: l)
  = JsArray.insertSorted compareFn x (JsArray.sort compareFn l).
Proof. reflexivity. Qed.

(** Sorting permutes, whatever the comparator. *)
Lemma sort_perm (l : list A) : JsArray.sort compareFn l ≡ₚ l.
Proof.
  induction l as [|x l IH]; [done|].
  rewrite sort_cons, insertSorted_perm. by f_equiv.
Qed.

(** Sorting a sorted array changes nothing (stability included). *)
Lemma sort_sorted_id (l : list A) :
  StronglySorted leq l -> JsArray.sort compareFn l = l.
Proof.
  induction 1 as [|x l Hs IH Hall]; [done|].
  rewrite sort_cons, IH. destruct l as [|y l]; [done|].
  simpl. apply Forall_cons in Hall as [Hxy _]. unfold JsArray.inOrder in Hxy.
  by rewrite (proj2 (Z.leb_le _ _) Hxy).
Qed.

(** With a comparator that is total and transitive on the elements at
    hand, the result is sorted. *)
Section Consistent.

Variable P : A -> Prop.
Hypothesis compare_total :
  forall x y, P x -> P y -> (compareFn x y > 0)%Z -> (compareFn y x <= 0)%Z.
Hypothesis compare_trans :
  forall x y z, P x -> P y -> P z ->
    (compareFn x y <= 0)%Z -> (compareFn y z <= 0)%Z -> (compareFn x z <= 0)%Z.

Lemma insertSorted_sorted (x : A) (l : list A) :
  P x -> Forall P l -> StronglySorted leq l ->
  StronglySorted leq (JsArray.insertSorted compareFn x l).
Proof.
  intros Px Pl Hs. induction Hs as [|y l Hs IH Hall]; simpl.
  - repeat constructor.
  - apply Forall_cons in Pl as [Py Pl].
    destruct (compareFn x y <=? 0)%Z eqn:E.
    + apply Z.leb_le in E. constructor; [by constructor|].
      constructor; [done|].
      rewrite Forall_forall in Hall, Pl |- *. intros z Hz.
      apply (compare_trans x y z); [auto..|exact E|exact (Hall z Hz)].
    + apply Z.leb_gt in E. constructor; [by apply IH|].
      rewrite insertSorted_perm. constructor; [|done].
      apply compare_total; [done..|lia].
Qed.

Lemma sort_sorted (l : list A) :
  Forall P l -> StronglySorted leq (JsArray.sort compareFn l).
Proof.
  induction 1 as [|x l Px Pl IH]; [constructor|].
  rewrite sort_cons. apply insertSorted_sorted; [done| |done].
  by rewrite sort_perm.
Qed.

End Consistent.

End SortFacts.

Lemma StronglySorted_filter {A : Type} (R : relation A) (Q : A -> Prop)
    `{!forall x, Decision (Q x)} (l : list A) :
  StronglySorted R l -> StronglySorted R (filter Q l).
Proof.
  induction 1 as [|x l Hs IH Hall]; [constructor|].
  rewrite filter_cons. destruct (decide (Q x)); [|done].
  constructor; [done|].
  rewrite Forall_forall in Hall |- *. intros y Hy.
  apply list_elem_of_filter in Hy as [_ Hy]. auto.
Qed.

Lemma StronglySorted_weaken {A : Type} (R R' : relation A) (l : list A) :
  (forall x y, x ∈ l -> y ∈ l -> R x y -> R' x y) ->
  StronglySorted R l -> StronglySorted R' l.
Proof.
  intros HR Hs. induction Hs as [|x l Hs IH Hall]; [constructor|].
  constructor.
  - apply IH. intros y z Hy Hz. apply HR; by right.
  - rewrite Forall_forall in Hall |- *. intros y Hy.
    apply HR; [by left|by right|auto].
Qed.

Section MapFacts.

Context {V : Type}.
Implicit Types (m : list (string * V)) (k : string) (v : V).

Lemma JsMap_get_None m k : JsMap.get m k = None <-> k ∉ m.*1.
Proof.
  induction m as [|[k' v'] m IH]; simpl.
  - split; [intros _; apply not_elem_of_nil|done].
  - destruct (String.eqb k' k) eqn:E.
    + apply String.eqb_eq in E as ->. split; [done|].
      intros H. destruct H. by left.
    + apply String.eqb_neq in E. rewrite IH, not_elem_of_cons.
      split; [intros H; split; [by apply not_eq_sym|done] | by intros [_ H]].
Qed.

Lemma JsMap_get_elem_of m k v : JsMap.get m k = Some v -> (k, v) ∈ m.
Proof.
  induction m as [|[k' v'] m IH]; simpl; [done|].
  destruct (String.eqb k' k) eqn:E.
  - apply String.eqb_eq in E as ->. intros [= ->]. by left.
  - intros H. right. by apply IH.
Qed.

Lemma JsMap_elem_of_get m k v : NoDup m.*1 -> (k, v) ∈ m -> JsMap.get m k = Some v.
Proof.
  induction m as [|[k' v'] m IH]; simpl; intros Hnd Hin.
  - by apply elem_of_nil in Hin.
  - apply NoDup_cons in Hnd as [Hk' Hnd].
    apply elem_of_cons in Hin as [[= <- <-]|Hin].
    + by rewrite String.eqb_refl.
    + destruct (String.eqb k' k) eqn:E; [|by apply IH].
      apply String.eqb_eq in E as ->. destruct Hk'.
      apply list_elem_of_fmap. by exists (k, v).
Qed.

Lemma JsMap_keys_set m k v :
  (JsMap.set m k v).*1 = if decide (k ∈ m.*1) then m.*1 else (m.*1 ++ [k])%list.
Proof.
  induction m as [|[k' v'] m IH].
  - destruct (decide (k ∈ ([] : list (string * V)).*1)) as [H|H]; [|done].
    by apply elem_of_nil in H.
  - change (((k', v') :: m).*1) with (k' :: m.*1).
    cbn [JsMap.set]. destruct (String.eqb k' k) eqn:E.
    + apply String.eqb_eq in E as ->.
      destruct (decide (k ∈ k :: m.*1)) as [H|H]; [done|].
      destruct H. by left.
    + apply String.eqb_neq in E.
      change (((k', v') :: JsMap.set m k v).*1) with (k' :: (JsMap.set m k v).*1).
      rewrite IH.
      destruct (decide (k ∈ m.*1)) as [H|H];
        destruct (decide (k ∈ k' :: m.*1)) as [H'|H']; try done.
      * destruct H'. by right.
      * apply elem_of_cons in H' as [->|H']; [by destruct E|by destruct H].
Qed.

Lemma JsMap_set_NoDup m k v : NoDup m.*1 -> NoDup (JsMap.set m k v).*1.
Proof.
  intros Hnd. rewrite JsMap_keys_set. destruct (decide (k ∈ m.*1)); [done|].
  apply NoDup_app. split; [done|]. split; [|apply NoDup_singleton].
  intros x Hx Hx'. apply list_elem_of_singleton in Hx' as ->. done.
Qed.

End MapFacts.


Lemma JsMap_get_set {V : Type} (m : list (string * V)) (k : string) (v : V) :
  JsMap.get (JsMap.set m k v) k = Some v.
Proof.
  induction m as [|[k' v'] m IH]; simpl.
  - by rewrite String.eqb_refl.
  - destruct (String.eqb k' k) eqn:E; simpl; rewrite E; [done|exact IH].
Qed.

Lemma JsMap_get_set_ne {V : Type} (m : list (string * V)) (k k' : string) (v : V) :
  k ≠ k' -> JsMap.get (JsMap.set m k v) k' = JsMap.get m k'.
Proof.
  intros Hne. induction m as [|[k0 v0] m IH]; simpl.
  - destruct (String.eqb k k') eqn:E; [|done].
    apply String.eqb_eq in E. by destruct Hne.
  - destruct (String.eqb k0 k) eqn:E; simpl.
    + apply String.eqb_eq in E as ->.
      destruct (String.eqb k k') eqn:E'; [|done].
      apply String.eqb_eq in E'. by destruct Hne.
    + by rewrite IH.
Qed.

Example trim_samples :
  trim "  a b  " = "a b" /\ trim "" = "" /\ trim (utf8 [9; 32; 10]%N) = "" /\
  trim (utf8 [239; 187; 191; 49; 194; 160]%N) = "1".
Proof. vm_compute. done. Qed.

(** *** Buckets as records *)

Lemma getKey_setKey (b : AggBucket) (k k' : BucketKey) (v : float) :
  getKey (setKey b k v) k' = if decide (k = k') then v else getKey b k'.
Proof. destruct k'; reflexivity. Qed.

Lemma getKey_setKey_eq (b : AggBucket) (k : BucketKey) (v : float) :
  getKey (setKey b k v) k = v.
Proof. rewrite getKey_setKey. by destruct (decide (k = k)). Qed.

Lemma getKey_setKey_ne (b : AggBucket) (k k' : BucketKey) (v : float) :
  k ≠ k' -> getKey (setKey b k v) k' = getKey b k'.
Proof. intros Hne. rewrite getKey_setKey. by destruct (decide (k = k')). Qed.

Lemma removeChar_absent (c : ascii) (s : string) :
  ~ In c (list_ascii_of_string (removeChar c s)).
Proof.
  induction s as [|a s IH]; simpl; [tauto|].
  destruct (Ascii.eqb a c) eqn:E; [exact IH|].
  simpl. intros [->|H]; [|tauto].
  by rewrite Ascii.eqb_refl in E.
Qed.

Lemma removeChar_keeps_absent (c d : ascii) (s : string) :
  ~ In d (list_ascii_of_string s) ->
  ~ In d (list_ascii_of_string (removeChar c s)).
Proof.
  induction s as [|a s IH]; simpl; [tauto|].
  intros Hd. destruct (Ascii.eqb a c); simpl; tauto.
Qed.

Lemma isEmpty_true (s : string) : isEmpty s = true <-> s = "".
Proof. destruct s; simpl; split; congruence. Qed.

(** *** Formatting *)

(** The cell of an output row that shows measurement [f]. *)
Definition cellOf (f : NumField) (r : OutputRow) : string :=
  match f with
  | Flow => r_flow r | MaxUser => r_maxUser r
  | UlPrb => r_ulPrb r | DlPrb => r_dlPrb r
  | UlRate => r_ulRate r | DlRate => r_dlRate r
  | AccessRate => r_accessRate r | DropRate => r_dropRate r
  | HandoverRate => r_handoverRate r | Interference => r_interference r
  end.

Lemma cellOf_averaged (f : NumField) (ck : BucketKey) (item : AggBucket)
    (dv nv : option string) :
  countKey f = Some ck ->
  cellOf f (toOutputRow item dv nv)
  = formatAverage (getKey item (sumKey f)) (getKey item ck).
Proof. destruct f; simpl; intros [= <-]; reflexivity. Qed.

(** C7. An averaged field whose count of valid observations is zero or
    negative is formatted as the empty string: [formatAverage] returns ""
    (so neither "0" nor "NaN"), and so does the corresponding cell of
    every row [toOutputRow] builds, whether the bucket is a detail bucket,
    a subtotal or the grand total. *)
Theorem formatAverage_empty_without_observations
    (sum count : float) (Hcount : (count <=? 0)%float = true) :
  formatAverage sum count = "" /\
  formatAverage sum count <> "0" /\
  formatAverage sum count <> "NaN" /\
  forall (f : NumField) (ck : BucketKey) (item : AggBucket) (dv nv : option string),
    countKey f = Some ck -> getKey item ck = count ->
    cellOf f (toOutputRow item dv nv) = "".
Proof.
  assert (H : forall x, formatAverage x count = "").
  { intros x. unfold formatAverage. by rewrite Hcount. }
  rewrite H. repeat split; try discriminate.
  intros f ck item dv nv Hck Hget.
  rewrite (cellOf_averaged f ck) by done. rewrite Hget. apply H.
Qed.

(** C5 (as the code has it). [parseNumeric] trims its argument and then
    removes every comma and every percent sign, wherever they stand.  It
    returns null exactly when what is left is empty or [Number] of it is
    not finite; otherwise it returns [Number] of it, never divided by 100:
    "88.8%" is parsed as "88.8" is. *)
Theorem parseNumeric_characterisation (s : string) :
  let cleaned := removeChar "%" (removeChar "," (trim s)) in
  ~ In ","%char (list_ascii_of_string cleaned) /\
  ~ In "%"%char (list_ascii_of_string cleaned) /\
  (parseNumeric (Some s) = None <->
     cleaned = "" \/ is_finite (Number cleaned) = false) /\
  (forall v, parseNumeric (Some s) = Some v <->
     cleaned <> "" /\ is_finite (Number cleaned) = true /\ v = Number cleaned) /\
  parseNumeric (Some "88.8%") = parseNumeric (Some "88.8") /\
  parseNumeric (Some "88.8%")
  = (if is_finite (Number "88.8") then Some (Number "88.8") else None).
Proof.
  intros cleaned. split; [|split; [|split; [|split; [|split]]]].
  - apply removeChar_keeps_absent, removeChar_absent.
  - apply removeChar_absent.
  - unfold parseNumeric. fold cleaned.
    destruct (isEmpty cleaned) eqn:E.
    + apply isEmpty_true in E. tauto.
    + assert (Hne : cleaned <> "").
      { intros H. apply isEmpty_true in H. congruence. }
      destruct (is_finite (Number cleaned)); simpl; split.
      * discriminate.
      * intros [H|H]; [by destruct Hne | discriminate].
      * auto.
      * auto.
  - intros v. unfold parseNumeric. fold cleaned.
    destruct (isEmpty cleaned) eqn:E.
    + apply isEmpty_true in E. split; [discriminate|]. tauto.
    + assert (Hne : cleaned <> "").
      { intros H. apply isEmpty_true in H. congruence. }
      destruct (is_finite (Number cleaned)); simpl; split.
      * intros [= <-]. auto.
      * intros (_ & _ & ->). reflexivity.
      * discriminate.
      * intros (_ & H & _). discriminate.
  - reflexivity.
  - unfold parseNumeric.
    change (removeChar "%" (removeChar "," (trim "88.8%"))) with "88.8".
    simpl. by destruct (is_finite (Number "88.8")).
Qed.

(** The reading of [parseNumeric] in which only the percent signs at the
    end are removed (the wording "strips trailing percent signs"), for
    comparison with the function above. *)
Fixpoint dropLeadingChar (c : ascii) (s : string) : string :=
  match s with
  | String a s' => if Ascii.eqb a c then dropLeadingChar c s' else s
  | EmptyString => EmptyString
  end.

Definition stripTrailingChar (c : ascii) (s : string) : string :=
  String.rev (dropLeadingChar c (String.rev s)).

Definition parseNumericTrailingPercent (value : option string) : option float :=
  match value with
  | None => None
  | Some value =>
      let cleaned := stripTrailingChar "%" (removeChar "," (trim value)) in
      if isEmpty cleaned then None
      else
        let num := Number cleaned in
        if negb (is_finite num) then None else Some num
  end.

(** *** The row loop *)

(** The measurement a bucket property belongs to. *)
Definition fieldOfKey (k : BucketKey) : NumField :=
  match k with
  | K_flowSum => Flow | K_maxUserSum => MaxUser
  | K_ulPrbSum | K_ulPrbCount => UlPrb
  | K_dlPrbSum | K_dlPrbCount => DlPrb
  | K_ulRateSum | K_ulRateCount => UlRate
  | K_dlRateSum | K_dlRateCount => DlRate
  | K_accessRateSum | K_accessRateCount => AccessRate
  | K_dropRateSum | K_dropRateCount => DropRate
  | K_handoverRateSum | K_handoverRateCount => HandoverRate
  | K_interferenceSum | K_interferenceCount => Interference
  end.

Lemma fieldOfKey_sumKey (f : NumField) : fieldOfKey (sumKey f) = f.
Proof. by destruct f. Qed.

Lemma fieldOfKey_countKey (f : NumField) (ck : BucketKey) :
  countKey f = Some ck -> fieldOfKey ck = f.
Proof. destruct f; simpl; intros [= <-]; reflexivity. Qed.

Lemma sumKey_ne_countKey (f : NumField) (ck : BucketKey) :
  countKey f = Some ck -> sumKey f ≠ ck.
Proof. destruct f; simpl; intros [= <-]; discriminate. Qed.

Lemma columnName_inj (f g : NumField) : columnName f = columnName g -> f = g.
Proof. destruct f, g; simpl; intros H; first [reflexivity | discriminate H]. Qed.

Lemma columnName_not_time (f : NumField) : columnName f ≠ "时间".
Proof. destruct f; discriminate. Qed.

Lemma columnName_not_network (f : NumField) : columnName f ≠ "网络".
Proof. destruct f; discriminate. Qed.

Lemma NoDup_allNumFields : NoDup allNumFields.
Proof. apply (bool_decide_unpack _). by vm_compute. Qed.

Lemma elem_of_allNumFields (f : NumField) : f ∈ allNumFields.
Proof. destruct f; apply (bool_decide_unpack _); by vm_compute. Qed.

(** The statement the loop body holds for measurement [f]. *)
Definition fieldStatement (f : NumField) (value : option float)
    (acc : AggBucket * gmap string N) : AggBucket * gmap string N :=
  match countKey f with
  | None => sumStatement (sumKey f) (columnName f) value acc
  | Some ck => avgStatement (sumKey f) ck (columnName f) value acc
  end.

Definition runStatements (val : NumField -> option float) (fields : list NumField)
    (acc : AggBucket * gmap string N) : AggBucket * gmap string N :=
  foldl (fun acc f => fieldStatement f (val f) acc) acc fields.

Lemma runStatements_cons val (f : NumField) (l : list NumField)
    (acc : AggBucket * gmap string N) :
  runStatements val (f :: l) acc = runStatements val l (fieldStatement f (val f) acc).
Proof. reflexivity. Qed.

(** The ten statements of the loop body are [fieldStatement] for the ten
    measurements, in order. *)
Lemma processDataRow_kept (ci : ColIndex) (st : AggState) (row : list string)
    (day : string) :
  parseDateToDay (default "" (cell row (c_time ci))) = Some day ->
  isEmpty day = false ->
  isEmpty (trim (default "" (cell row (c_network ci)))) = false ->
  processDataRow ci st row =
    let networkRaw := trim (default "" (cell row (c_network ci))) in
    let key := day ++ "__" ++ networkRaw in
    let bucket :=
      default (createEmptyBucket day networkRaw) (JsMap.get (buckets st) key) in
    let acc :=
      runStatements (fun f => parseNumeric (cell row (colOf ci f))) allNumFields
        (bucket, invalidFieldStats st) in
    mkState (JsMap.set (buckets st) key acc.1) (processedRows st + 1)
      (skippedRows st) acc.2 (isHeader st).
Proof.
  intros Hday Hd Hn. unfold processDataRow. rewrite Hday, Hd, Hn.
  cbv [runStatements allNumFields foldl fieldStatement countKey sumKey
       columnName colOf].
  reflexivity.
Qed.

Local Opaque runStatements.

Lemma fieldStatement_bucket (f : NumField) (v : option float)
    (acc : AggBucket * gmap string N) :
  (fieldStatement f v acc).1 =
    match v with
    | None => acc.1
    | Some x =>
        let b := setKey acc.1 (sumKey f) (getKey acc.1 (sumKey f) + x) in
        match countKey f with
        | None => b
        | Some ck => setKey b ck (getKey acc.1 ck + 1)
        end
    end.
Proof. destruct f, v; reflexivity. Qed.

Lemma fieldStatement_stats (f : NumField) (v : option float)
    (acc : AggBucket * gmap string N) :
  (fieldStatement f v acc).2 =
    match v with
    | None => countInvalid (columnName f) acc.2
    | Some _ => acc.2
    end.
Proof. destruct f, v; reflexivity. Qed.

Lemma fieldStatement_key_other (g : NumField) (v : option float)
    (acc : AggBucket * gmap string N) (k : BucketKey) :
  fieldOfKey k ≠ g -> getKey (fieldStatement g v acc).1 k = getKey acc.1 k.
Proof.
  intros Hk. rewrite fieldStatement_bucket. destruct v as [x|]; [|done].
  assert (sumKey g ≠ k) by (intros <-; by rewrite fieldOfKey_sumKey in Hk).
  simpl. destruct (countKey g) as [ck|] eqn:Eck.
  - assert (ck ≠ k) by (intros <-; by rewrite (fieldOfKey_countKey g ck) in Hk).
    by rewrite !getKey_setKey_ne.
  - by rewrite getKey_setKey_ne.
Qed.

Lemma fieldStatement_identity (g : NumField) (v : option float)
    (acc : AggBucket * gmap string N) :
  date (fieldStatement g v acc).1 = date acc.1 /\
  network (fieldStatement g v acc).1 = network acc.1.
Proof. rewrite fieldStatement_bucket. destruct v, (countKey g); done. Qed.

Lemma fieldStatement_name_other (g : NumField) (v : option float)
    (acc : AggBucket * gmap string N) (name : string) :
  name ≠ columnName g -> (fieldStatement g v acc).2 !! name = acc.2 !! name.
Proof.
  intros Hn. rewrite fieldStatement_stats. destruct v; [done|].
  unfold countInvalid. by rewrite lookup_insert_ne.
Qed.

Lemma runStatements_key_other val (l : list NumField)
    (acc : AggBucket * gmap string N) (k : BucketKey) :
  fieldOfKey k ∉ l -> getKey (runStatements val l acc).1 k = getKey acc.1 k.
Proof.
  revert acc. induction l as [|g l IH]; intros acc Hk; [done|].
  rewrite runStatements_cons. rewrite IH by set_solver.
  apply fieldStatement_key_other. set_solver.
Qed.

Lemma runStatements_identity val (l : list NumField)
    (acc : AggBucket * gmap string N) :
  date (runStatements val l acc).1 = date acc.1 /\
  network (runStatements val l acc).1 = network acc.1.
Proof.
  revert acc. induction l as [|g l IH]; intros acc; [done|].
  rewrite runStatements_cons. destruct (IH (fieldStatement g (val g) acc)) as [-> ->].
  apply fieldStatement_identity.
Qed.

Lemma runStatements_name_other val (l : list NumField)
    (acc : AggBucket * gmap string N) (name : string) :
  (forall f, f ∈ l -> name ≠ columnName f) ->
  (runStatements val l acc).2 !! name = acc.2 !! name.
Proof.
  revert acc. induction l as [|g l IH]; intros acc Hn; [done|].
  rewrite runStatements_cons. rewrite IH by (intros; apply Hn; set_solver).
  apply fieldStatement_name_other, Hn. set_solver.
Qed.

(** What the statements do to measurement [f], in terms of the value
    parsed for it alone. *)
Definition fieldEffect (f : NumField) (v : option float)
    (before after : AggBucket * gmap string N) : Prop :=
  match v with
  | Some x =>
      getKey after.1 (sumKey f) = (getKey before.1 (sumKey f) + x)%float /\
      (forall ck, countKey f = Some ck ->
         getKey after.1 ck = (getKey before.1 ck + 1)%float) /\
      after.2 !! columnName f = before.2 !! columnName f
  | None =>
      getKey after.1 (sumKey f) = getKey before.1 (sumKey f) /\
      (forall ck, countKey f = Some ck -> getKey after.1 ck = getKey before.1 ck) /\
      after.2 !!! columnName f = (before.2 !!! columnName f + 1)%N
  end.

Lemma fieldStatement_effect (f : NumField) (v : option float)
    (acc : AggBucket * gmap string N) :
  fieldEffect f v acc (fieldStatement f v acc).
Proof.
  unfold fieldEffect. rewrite fieldStatement_bucket, fieldStatement_stats.
  destruct v as [x|].
  - simpl. destruct (countKey f) as [ck|] eqn:Eck.
    + pose proof (sumKey_ne_countKey f ck Eck) as Hne.
      rewrite getKey_setKey_ne, getKey_setKey_eq by done.
      split; [done|]. split; [|done].
      intros ck' [= <-]. by rewrite getKey_setKey_eq.
    + rewrite getKey_setKey_eq. split; [done|]. split; [|done]. discriminate.
  - split; [done|]. split; [done|].
    unfold countInvalid. by rewrite lookup_total_insert_eq.
Qed.

Lemma runStatements_effect val (l : list NumField)
    (acc : AggBucket * gmap string N) (f : NumField) :
  NoDup l -> f ∈ l -> fieldEffect f (val f) acc (runStatements val l acc).
Proof.
  revert acc. induction l as [|g l IH]; intros acc Hnd Hf; [set_solver|].
  apply NoDup_cons in Hnd as [Hg Hnd]. rewrite runStatements_cons.
  destruct (decide (f = g)) as [->|Hfg].
  - (* the statement of [g] acts, the later ones leave it alone *)
    pose proof (fieldStatement_effect g (val g) acc) as He.
    set (acc1 := fieldStatement g (val g) acc) in *.
    assert (Hs : getKey (runStatements val l acc1).1 (sumKey g)
                 = getKey acc1.1 (sumKey g)).
    { apply runStatements_key_other. by rewrite fieldOfKey_sumKey. }
    assert (Hc : forall ck, countKey g = Some ck ->
               getKey (runStatements val l acc1).1 ck = getKey acc1.1 ck).
    { intros ck Hck. apply runStatements_key_other.
      by rewrite (fieldOfKey_countKey g ck). }
    assert (Hn : (runStatements val l acc1).2 !! columnName g
                 = acc1.2 !! columnName g).
    { apply runStatements_name_other. intros f' Hf' Heq.
      apply columnName_inj in Heq as ->. done. }
    unfold fieldEffect in *. destruct (val g).
    + destruct He as (H1 & H2 & H3). rewrite Hs, Hn. split; [done|].
      split; [|done]. intros ck Hck. rewrite Hc by done. by apply H2.
    + destruct He as (H1 & H2 & H3). rewrite Hs. split; [done|].
      split; [intros ck Hck; rewrite Hc by done; by apply H2|].
      by rewrite !lookup_total_alt, Hn, <-!lookup_total_alt.
  - (* the statement of [g] leaves [f] alone *)
    assert (Hf' : f ∈ l).
    { apply elem_of_cons in Hf as [Hf|Hf]; [by destruct Hfg | done]. }
    pose proof (IH (fieldStatement g (val g) acc) Hnd Hf') as He.
    set (acc1 := fieldStatement g (val g) acc) in *.
    assert (Hs : getKey acc1.1 (sumKey f) = getKey acc.1 (sumKey f)).
    { apply fieldStatement_key_other. by rewrite fieldOfKey_sumKey. }
    assert (Hc : forall ck, countKey f = Some ck ->
               getKey acc1.1 ck = getKey acc.1 ck).
    { intros ck Hck. apply fieldStatement_key_other.
      by rewrite (fieldOfKey_countKey f ck). }
    assert (Hn : acc1.2 !! columnName f = acc.2 !! columnName f).
    { apply fieldStatement_name_other. intros Heq.
      by apply columnName_inj in Heq. }
    unfold fieldEffect in *. destruct (val f).
    + destruct He as (H1 & H2 & H3). rewrite H1, H3, Hs, Hn. split; [done|].
      split; [|done]. intros ck Hck. rewrite (H2 ck Hck). by rewrite Hc.
    + destruct He as (H1 & H2 & H3). rewrite H1, H3, Hs. split; [done|].
      split; [intros ck Hck; rewrite (H2 ck Hck); by apply Hc|].
      by rewrite !lookup_total_alt, Hn.
Qed.

Lemma countInvalid_dom (name : string) (stats : gmap string N) :
  name ∈ dom stats -> dom (countInvalid name stats) = dom stats.
Proof.
  intros Hin. unfold countInvalid. rewrite dom_insert_L.
  apply subseteq_union_1_L. by apply singleton_subseteq_l.
Qed.

Lemma columnName_tracked (f : NumField) :
  columnName f ∈ dom initialInvalidFieldStats.
Proof.
  apply elem_of_dom. destruct f; by exists 0%N.
Qed.

Lemma runStatements_dom val (l : list NumField)
    (acc : AggBucket * gmap string N) :
  dom acc.2 = dom initialInvalidFieldStats ->
  dom (runStatements val l acc).2 = dom initialInvalidFieldStats.
Proof.
  revert acc. induction l as [|g l IH]; intros acc Hdom; [done|].
  rewrite runStatements_cons. apply IH. rewrite fieldStatement_stats. destruct (val g); [done|].
  rewrite countInvalid_dom; [done|]. rewrite Hdom. apply columnName_tracked.
Qed.

(** [format('YYYY-MM-DD')] never prints the empty string, so [!day] holds
    only for null. *)
Lemma format_YYYY_MM_DD_nonempty (d : Dayjs) : isEmpty (format_YYYY_MM_DD d) = false.
Proof.
  unfold format_YYYY_MM_DD.
  destruct (padStart0 4 (ofN (dj_year d))); reflexivity.
Qed.

Lemma parseDateToDay_nonempty (value day : string) :
  parseDateToDay value = Some day -> isEmpty day = false.
Proof.
  unfold parseDateToDay. destruct (isEmpty (trim value)); [discriminate|].
  destruct (firstValid _ _); [intros [= <-]; apply format_YYYY_MM_DD_nonempty|].
  destruct (dayjsAuto _); [intros [= <-]; apply format_YYYY_MM_DD_nonempty|].
  discriminate.
Qed.

(** The three ways a data row ends. *)
Inductive RowOutcome :=
  | InvalidTime
  | InvalidNetwork
  | Kept (day networkRaw : string).

Definition rowOutcome (ci : ColIndex) (row : list string) : RowOutcome :=
  match parseDateToDay (default "" (cell row (c_time ci))) with
  | None => InvalidTime
  | Some day =>
      let networkRaw := trim (default "" (cell row (c_network ci))) in
      if isEmpty networkRaw then InvalidNetwork else Kept day networkRaw
  end.

Lemma processDataRow_outcome (ci : ColIndex) (st : AggState) (row : list string) :
  processDataRow ci st row =
    match rowOutcome ci row with
    | InvalidTime => skipRow "时间" st
    | InvalidNetwork => skipRow "网络" st
    | Kept day networkRaw =>
        let key := day ++ "__" ++ networkRaw in
        let bucket :=
          default (createEmptyBucket day networkRaw) (JsMap.get (buckets st) key) in
        let acc :=
          runStatements (fun f => parseNumeric (cell row (colOf ci f))) allNumFields
            (bucket, invalidFieldStats st) in
        mkState (JsMap.set (buckets st) key acc.1) (processedRows st + 1)
          (skippedRows st) acc.2 (isHeader st)
    end.
Proof.
  unfold rowOutcome.
  destruct (parseDateToDay (default "" (cell row (c_time ci)))) as [day|] eqn:Hday.
  - pose proof (parseDateToDay_nonempty _ _ Hday) as Hd.
    destruct (isEmpty (trim (default "" (cell row (c_network ci))))) eqn:Hn.
    + unfold processDataRow. by rewrite Hday, Hd, Hn.
    + by apply processDataRow_kept.
  - unfold processDataRow. by rewrite Hday.
Qed.

(** *** The state after any number of rows *)

Lemma foldl_snoc {A B : Type} (f : A -> B -> A) (a : A) (l : list B) (x : B) :
  foldl f a (l ++ [x])%list = f (foldl f a l) x.
Proof. by rewrite foldl_app. Qed.

(** Every state the loop reaches satisfies a property that holds at the
    start and that every iteration keeps. *)
Lemma parseDataRows_ind (P : AggState -> Prop) (ci : ColIndex) :
  P initialState ->
  (forall st row, P st -> P (processRow ci st row)) ->
  forall rows, P (parseDataRows ci rows).
Proof.
  intros H0 Hstep rows. unfold parseDataRows.
  induction rows as [|row rows IH] using rev_ind; [exact H0|].
  rewrite foldl_snoc. by apply Hstep.
Qed.

Lemma processRow_data_row (ci : ColIndex) (st : AggState) (row : list string) :
  isHeader st = false -> processRow ci st row = processDataRow ci st row.
Proof. intros H. unfold processRow. by rewrite H. Qed.

Lemma processDataRow_processed (ci : ColIndex) (st : AggState) (row : list string) :
  processedRows (processDataRow ci st row) = (processedRows st + 1)%N /\
  isHeader (processDataRow ci st row) = isHeader st.
Proof. rewrite processDataRow_outcome. by destruct (rowOutcome ci row). Qed.

(** Row 0 is the header; every later row is a data row and is counted. *)
Lemma processedRows_counts_data_rows (ci : ColIndex) (header : list string)
    (rows : list (list string)) :
  processedRows (parseDataRows ci (header :: rows)) = N.of_nat (length rows) /\
  isHeader (parseDataRows ci (header :: rows)) = false.
Proof.
  unfold parseDataRows. induction rows as [|row rows IH] using rev_ind; [done|].
  rewrite app_comm_cons, foldl_snoc, length_app.
  destruct IH as [IHn IHh].
  rewrite processRow_data_row by done.
  destruct (processDataRow_processed ci
              (foldl (processRow ci) initialState (header :: rows)) row) as [-> ->].
  split; [|done]. rewrite IHn. simpl. lia.
Qed.

(** C1. In the aggregation pass every row after the header is handled by
    [processDataRow] and increments [processedRows], which ends as the
    number of data rows.  If [parseDateToDay] of its time field is null the row
    increments the time counter and [skippedRows] and nothing else, and no
    bucket changes; otherwise, if its trimmed network field is empty, the
    same holds with the network counter.  In every other case the row is
    kept: [skippedRows] is unchanged, only the bucket of its (day, network)
    key is written, and each of the ten numeric fields on its own either
    adds its parsed value to that bucket (and one to its count, for an
    averaged field) or increments its own invalid counter; no other
    counter moves. *)
Theorem processDataRow_accounting (ci : ColIndex) (st : AggState)
    (row : list string) :
  let st' := processDataRow ci st row in
  (isHeader st = false -> processRow ci st row = st') /\
  (forall (header : list string) (rows : list (list string)),
     processedRows (parseDataRows ci (header :: rows)) = N.of_nat (length rows)) /\
  processedRows st' = (processedRows st + 1)%N /\
  match parseDateToDay (default "" (cell row (c_time ci))) with
  | None =>
      invalidFieldStats st' = countInvalid "时间" (invalidFieldStats st) /\
      skippedRows st' = (skippedRows st + 1)%N /\
      buckets st' = buckets st
  | Some day =>
      let networkRaw := trim (default "" (cell row (c_network ci))) in
      if isEmpty networkRaw then
        invalidFieldStats st' = countInvalid "网络" (invalidFieldStats st) /\
        skippedRows st' = (skippedRows st + 1)%N /\
        buckets st' = buckets st
      else
        let key := day ++ "__" ++ networkRaw in
        let before :=
          default (createEmptyBucket day networkRaw) (JsMap.get (buckets st) key) in
        skippedRows st' = skippedRows st /\
        exists after : AggBucket,
          buckets st' = JsMap.set (buckets st) key after /\
          date after = date before /\ network after = network before /\
          (forall name, (forall f, name ≠ columnName f) ->
             invalidFieldStats st' !! name = invalidFieldStats st !! name) /\
          forall f : NumField,
            fieldEffect f (parseNumeric (cell row (colOf ci f)))
              (before, invalidFieldStats st) (after, invalidFieldStats st')
  end.
Proof.
  intros st'. subst st'.
  split; [apply processRow_data_row|].
  split; [intros header rows; apply processedRows_counts_data_rows|].
  rewrite processDataRow_outcome. unfold rowOutcome.
  destruct (parseDateToDay _) as [day|]; [|done].
  simpl. destruct (isEmpty _); [done|]. simpl.
  split; [done|]. split; [done|].
  eexists. split; [reflexivity|].
  match goal with
  | |- context [runStatements ?val ?l ?acc] =>
      destruct (runStatements_identity val l acc) as [Hd Hn];
      pose proof (fun name H => runStatements_name_other val l acc name H) as Hother;
      pose proof (fun f => runStatements_effect val l acc f NoDup_allNumFields
                             (elem_of_allNumFields f)) as He
  end.
  split; [exact Hd|]. split; [exact Hn|]. split.
  - intros name Hname. apply Hother. auto.
  - intros f. apply He.
Qed.

(** *** The skipped rows *)

Definition timeInvalid (st : AggState) : N := invalidFieldStats st !!! "时间".
Definition networkInvalid (st : AggState) : N := invalidFieldStats st !!! "网络".

(** One iteration either counts a skipped row together with exactly one of
    the two counters, or touches none of the three. *)
Lemma processRow_skip_counters (ci : ColIndex) (st : AggState) (row : list string) :
  let st' := processRow ci st row in
  (skippedRows st' = (skippedRows st + 1)%N /\
   timeInvalid st' = (timeInvalid st + 1)%N /\
   networkInvalid st' = networkInvalid st) \/
  (skippedRows st' = (skippedRows st + 1)%N /\
   timeInvalid st' = timeInvalid st /\
   networkInvalid st' = (networkInvalid st + 1)%N) \/
  (skippedRows st' = skippedRows st /\
   timeInvalid st' = timeInvalid st /\
   networkInvalid st' = networkInvalid st).
Proof.
  unfold processRow, timeInvalid, networkInvalid.
  destruct (isHeader st); [right; right; done|].
  rewrite processDataRow_outcome. destruct (rowOutcome ci row); simpl.
  - left. unfold countInvalid.
    by rewrite lookup_total_insert_eq, lookup_total_insert_ne.
  - right; left. unfold countInvalid.
    by rewrite lookup_total_insert_eq, lookup_total_insert_ne.
  - right; right. split; [done|].
    rewrite !lookup_total_alt, !runStatements_name_other; [done|..];
      intros f _; apply not_eq_sym;
      [apply columnName_not_network | apply columnName_not_time].
Qed.

Definition skipInvariant (st : AggState) : Prop :=
  skippedRows st = (timeInvalid st + networkInvalid st)%N.

(** C8. After the header and after every data row, that is for every
    prefix of the rows and at the end of the pass, [skippedRows] is the sum
    of the time and network invalid counters; an iteration adds one to
    [skippedRows] exactly when it adds one to one of the two counters, and
    it changes them in no other way. *)
Theorem skippedRows_is_time_plus_network (ci : ColIndex) (rows : list (list string)) :
  (forall n : nat, skipInvariant (parseDataRows ci (take n rows))) /\
  skipInvariant (parseDataRows ci rows) /\
  forall (st : AggState) (row : list string),
    let st' := processRow ci st row in
    (skippedRows st' = (skippedRows st + 1)%N /\
     timeInvalid st' = (timeInvalid st + 1)%N /\
     networkInvalid st' = networkInvalid st) \/
    (skippedRows st' = (skippedRows st + 1)%N /\
     timeInvalid st' = timeInvalid st /\
     networkInvalid st' = (networkInvalid st + 1)%N) \/
    (skippedRows st' = skippedRows st /\
     timeInvalid st' = timeInvalid st /\
     networkInvalid st' = networkInvalid st).
Proof.
  assert (Hall : forall l, skipInvariant (parseDataRows ci l)).
  { apply parseDataRows_ind; [reflexivity|].
    intros st row Hst. unfold skipInvariant in *.
    destruct (processRow_skip_counters ci st row)
      as [(-> & -> & ->)|[(-> & -> & ->)|(-> & -> & ->)]]; lia. }
  split; [intros n; apply Hall|]. split; [apply Hall|].
  apply processRow_skip_counters.
Qed.

(** The keys of [invalidFieldStats]: time, network and the ten
    measurements. *)
Definition trackedKeys : list string :=
  "时间" :: "网络" :: (columnName <$> allNumFields).

Lemma processRow_dom (ci : ColIndex) (st : AggState) (row : list string) :
  dom (invalidFieldStats st) = dom initialInvalidFieldStats ->
  dom (invalidFieldStats (processRow ci st row)) = dom initialInvalidFieldStats.
Proof.
  intros Hdom. unfold processRow. destruct (isHeader st); [done|].
  rewrite processDataRow_outcome.
  destruct (rowOutcome ci row); simpl.
  - rewrite countInvalid_dom; [done|]. rewrite Hdom. apply elem_of_dom. by exists 0%N.
  - rewrite countInvalid_dom; [done|]. rewrite Hdom. apply elem_of_dom. by exists 0%N.
  - by apply runStatements_dom.
Qed.

(** C4 (as the code has it). The [invalidFieldStats] a run returns has
    exactly twelve keys: the time field, the network field and the ten
    numeric fields.  All twelve are there from the start with value zero,
    whether or not a row ever increments them, and no row adds a key. *)
Theorem invalidFieldStats_twelve_keys (ci : ColIndex) (rows : list (list string)) :
  let stats := invalidFieldStats (parseDataRows ci rows) in
  dom stats = list_to_set trackedKeys /\
  size stats = 12%nat /\
  length allNumFields = 10%nat /\
  (forall name, name ∈ trackedKeys -> initialInvalidFieldStats !! name = Some 0%N) /\
  (forall name, name ∈ trackedKeys -> is_Some (stats !! name)).
Proof.
  intros stats.
  assert (Hdom : dom stats = dom initialInvalidFieldStats).
  { subst stats. apply parseDataRows_ind; [done|]. apply processRow_dom. }
  assert (Hinit : dom initialInvalidFieldStats = list_to_set trackedKeys).
  { unfold initialInvalidFieldStats. by rewrite dom_list_to_map_L. }
  split; [by rewrite Hdom|]. split; [|split; [done|split]].
  - rewrite <-size_dom, Hdom, Hinit. by vm_compute.
  - intros name Hin. unfold trackedKeys, allNumFields in Hin. simpl in Hin.
    repeat (apply elem_of_cons in Hin as [->|Hin]; [vm_compute; reflexivity|]).
    apply elem_of_nil in Hin. destruct Hin.
  - intros name Hin. apply elem_of_dom. rewrite Hdom, Hinit.
    by apply elem_of_list_to_set.
Qed.

(** *** Short rows *)

Lemma cell_absent (row : list string) (i : Z) :
  (i < 0 \/ Z.of_nat (length row) <= i)%Z -> cell row i = None.
Proof.
  intros H. unfold cell. destruct (i <? 0)%Z eqn:E; [done|].
  apply Z.ltb_ge in E. apply lookup_ge_None. lia.
Qed.

(** A cell of the row padded with empty cells is the cell of the row, or
    an empty cell where the row has none. *)
Lemma cell_padded (row : list string) (k : nat) (i : Z) :
  cell (row ++ replicate k "")%list i = cell row i \/
  (cell (row ++ replicate k "")%list i = Some "" /\ cell row i = None).
Proof.
  unfold cell. destruct (i <? 0)%Z; [by left|].
  destruct (decide (Z.to_nat i < length row)) as [Hlt|Hge].
  - left. by rewrite lookup_app_l.
  - rewrite lookup_app_r by lia.
    rewrite (proj2 (lookup_ge_None row (Z.to_nat i))) by lia.
    destruct (replicate k "" !! (Z.to_nat i - length row)) as [x|] eqn:E;
      [|by left].
    apply lookup_replicate in E as [-> _]. by right.
Qed.

Lemma parseNumeric_empty : parseNumeric (Some "") = None.
Proof. reflexivity. Qed.

Lemma parseNumeric_padded (row : list string) (k : nat) (i : Z) :
  parseNumeric (cell (row ++ replicate k "")%list i) = parseNumeric (cell row i).
Proof. destruct (cell_padded row k i) as [->|[-> ->]]; done. Qed.

Lemma default_cell_padded (row : list string) (k : nat) (i : Z) :
  default "" (cell (row ++ replicate k "")%list i) = default "" (cell row i).
Proof. destruct (cell_padded row k i) as [->|[-> ->]]; done. Qed.

Lemma processDataRow_padded (ci : ColIndex) (st : AggState) (row : list string)
    (k : nat) :
  processDataRow ci st (row ++ replicate k "")%list = processDataRow ci st row.
Proof.
  unfold processDataRow.
  rewrite !default_cell_padded, !parseNumeric_padded. reflexivity.
Qed.

(** C9. A row shorter than the header's column indices (or a column the
    header lacks, index -1) is processed like any other row, by the same
    total function, with no exception to escalate to a run-level error: the
    absent cell reads as undefined, [parseNumeric(undefined)] is null, and
    in a kept row the absence adds one to that field's invalid counter and
    leaves the field's sum and count alone.  The whole row is processed
    exactly as the row completed with empty cells, which fail to parse. *)
Theorem short_row_counts_as_invalid (ci : ColIndex) (st : AggState)
    (row : list string) :
  (forall i : Z, (i < 0 \/ Z.of_nat (length row) <= i)%Z -> cell row i = None) /\
  parseNumeric None = None /\
  parseNumeric (Some "") = None /\
  (forall k : nat,
     processDataRow ci st (row ++ replicate k "")%list = processDataRow ci st row) /\
  (forall (day networkRaw : string) (f : NumField),
     rowOutcome ci row = Kept day networkRaw ->
     cell row (colOf ci f) = None ->
     let st' := processDataRow ci st row in
     let key := day ++ "__" ++ networkRaw in
     let before :=
       default (createEmptyBucket day networkRaw) (JsMap.get (buckets st) key) in
     processedRows st' = (processedRows st + 1)%N /\
     skippedRows st' = skippedRows st /\
     invalidFieldStats st' !!! columnName f
     = (invalidFieldStats st !!! columnName f + 1)%N /\
     exists after : AggBucket,
       JsMap.get (buckets st') key = Some after /\
       getKey after (sumKey f) = getKey before (sumKey f) /\
       forall ck, countKey f = Some ck -> getKey after ck = getKey before ck).
Proof.
  split; [apply cell_absent|]. split; [done|]. split; [done|].
  split; [apply processDataRow_padded|].
  intros day networkRaw f Hout Hcell st' key before. subst st'.
  rewrite processDataRow_outcome, Hout. cbv zeta.
  cbn [processedRows skippedRows invalidFieldStats buckets].
  split; [done|]. split; [done|].
  match goal with
  | |- context [runStatements ?val ?l ?acc] =>
      pose proof (runStatements_effect val l acc f NoDup_allNumFields
                    (elem_of_allNumFields f)) as He
  end.
  unfold fieldEffect in He. cbv beta in He. rewrite Hcell in He.
  change (parseNumeric None) with (@None float) in He.
  destruct He as (H1 & H2 & H3). split; [exact H3|].
  eexists. split; [apply JsMap_get_set|]. split; [exact H1|exact H2].
Qed.

(** *** Output rows: grouping *)

Definition pushByDate (byDate : list (string * list AggBucket)) (item : AggBucket)
    : list (string * list AggBucket) :=
  JsMap.set byDate (date item)
    (default [] (JsMap.get byDate (date item)) ++ [item])%list.


(** The buckets of [l] dated [d]. *)
Definition datedOn (d : string) (l : list AggBucket) : list AggBucket :=
  filter (fun b => date b = d) l.

Definition extendGroup (old : option (list AggBucket)) (new : list AggBucket)
    : option (list AggBucket) :=
  match old, new with
  | None, [] => None
  | _, _ => Some (default [] old ++ new)%list
  end.

Lemma foldl_pushByDate_get (l : list AggBucket)
    (acc : list (string * list AggBucket)) (d : string) :
  JsMap.get (foldl pushByDate acc l) d
  = extendGroup (JsMap.get acc d) (datedOn d l).
Proof.
  revert acc. induction l as [|item l IH]; intros acc.
  - simpl. unfold datedOn. rewrite filter_nil.
    destruct (JsMap.get acc d); simpl; [by rewrite app_nil_r|done].
  - simpl. rewrite IH. unfold datedOn, pushByDate. rewrite filter_cons.
    destruct (decide (date item = d)) as [->|Hne].
    + rewrite JsMap_get_set. simpl.
      destruct (JsMap.get acc d); simpl; by rewrite <-?app_assoc.
    + by rewrite JsMap_get_set_ne.
Qed.

Lemma foldl_pushByDate_NoDup (l : list AggBucket)
    (acc : list (string * list AggBucket)) :
  NoDup acc.*1 -> NoDup (foldl pushByDate acc l).*1.
Proof.
  revert acc. induction l as [|item l IH]; intros acc Hnd; [done|].
  simpl. apply IH. by apply JsMap_set_NoDup.
Qed.


Lemma groupByDate_NoDup (l : list AggBucket) : NoDup (groupByDate l).*1.
Proof. apply foldl_pushByDate_NoDup. constructor. Qed.

(** The entries of [byDate]: one per date that occurs, holding the buckets
    of that date in the order they have in [l]. *)
Lemma groupByDate_entries (l : list AggBucket) (d : string) (bs : list AggBucket) :
  (d, bs) ∈ groupByDate l <-> bs = datedOn d l /\ bs ≠ [].
Proof.
  pose proof (foldl_pushByDate_get l [] d) as Hget.
  change (foldl pushByDate [] l) with (groupByDate l) in Hget.
  cbn [JsMap.get] in Hget. split.
  - intros Hin. apply JsMap_elem_of_get in Hin; [|apply groupByDate_NoDup].
    rewrite Hin in Hget. destruct (datedOn d l); simpl in Hget; [done|].
    by injection Hget as ->.
  - intros [-> Hne]. apply JsMap_get_elem_of. rewrite Hget.
    by destruct (datedOn d l).
Qed.



(** *** Output rows: what the options change *)











(** *** Output rows: subtotals and grand total *)

(** The rows of one date as the specification lists them: the subtotal of
    the date's buckets, then one detail row per bucket. *)
Definition subtotalThenDetails (blankDate : bool) (g : string * list AggBucket)
    : list OutputRow :=
  toOutputRow (foldl mergeBucket (createEmptyBucket g.1 "") g.2) (Some g.1) (Some "")
  :: ((fun item =>
         toOutputRow item (Some (if blankDate then "" else g.1)) (Some (network item)))
        <$> g.2).

Lemma dateGroupRows_sorted (blankDate : bool) (g : string * list AggBucket) :
  StronglySorted (JsArray.inOrder compareNetworks) g.2 ->
  dateGroupRows blankDate g = subtotalThenDetails blankDate g.
Proof.
  intros Hs. unfold dateGroupRows, subtotalThenDetails.
  by rewrite (sort_sorted_id _ _ Hs).
Qed.

Lemma flat_map_dateGroupRows (blankDate : bool) (groups : list (string * list AggBucket)) :
  Forall (fun g => StronglySorted (JsArray.inOrder compareNetworks) g.2) groups ->
  flat_map (dateGroupRows blankDate) groups
  = flat_map (subtotalThenDetails blankDate) groups.
Proof.
  induction 1 as [|g groups Hg _ IH]; [done|].
  cbn [flat_map]. by rewrite IH, dateGroupRows_sorted.
Qed.

Section ConsistentCollation.

(** [localeCompare] orders strings: swapping the arguments swaps the
    sign, and "not after" is transitive. *)
Hypothesis localeCompare_antisym :
  forall a b, Z.sgn (localeCompare b a) = (- Z.sgn (localeCompare a b))%Z.
Hypothesis localeCompare_trans :
  forall a b c,
    (localeCompare a b <= 0)%Z -> (localeCompare b c <= 0)%Z ->
    (localeCompare a c <= 0)%Z.

Lemma localeCompare_total (a b : string) :
  (localeCompare a b > 0)%Z -> (localeCompare b a <= 0)%Z.
Proof. pose proof (localeCompare_antisym a b). lia. Qed.

Variable items : list AggBucket.

(** Dates that collate equal are equal (they are YYYY-MM-DD strings). *)
Hypothesis dates_distinguished :
  forall b1 b2, b1 ∈ items -> b2 ∈ items ->
    localeCompare (date b1) (date b2) = 0%Z -> date b1 = date b2.

Lemma compareBuckets_same_date (a b : AggBucket) :
  date a = date b -> compareBuckets a b = compareNetworks a b.
Proof. intros H. unfold compareBuckets. by rewrite H, String.eqb_refl. Qed.

Lemma compareBuckets_other_date (a b : AggBucket) :
  date a ≠ date b -> compareBuckets a b = localeCompare (date a) (date b).
Proof.
  intros H. unfold compareBuckets.
  destruct (String.eqb (date a) (date b)) eqn:E; [|done].
  by apply String.eqb_eq in E.
Qed.

Lemma compareBuckets_total (x y : AggBucket) :
  x ∈ items -> y ∈ items ->
  (compareBuckets x y > 0)%Z -> (compareBuckets y x <= 0)%Z.
Proof.
  intros _ _. destruct (decide (date x = date y)) as [E|E].
  - rewrite !compareBuckets_same_date by done. apply localeCompare_total.
  - rewrite !compareBuckets_other_date by done. apply localeCompare_total.
Qed.

Lemma compareBuckets_trans (x y z : AggBucket) :
  x ∈ items -> y ∈ items -> z ∈ items ->
  (compareBuckets x y <= 0)%Z -> (compareBuckets y z <= 0)%Z ->
  (compareBuckets x z <= 0)%Z.
Proof.
  intros Hx Hy Hz.
  destruct (decide (date x = date y)) as [Exy|Exy];
    destruct (decide (date y = date z)) as [Eyz|Eyz].
  - rewrite !compareBuckets_same_date by congruence.
    apply localeCompare_trans.
  - rewrite (compareBuckets_same_date x y) by done.
    rewrite !compareBuckets_other_date by congruence.
    rewrite Exy. auto.
  - rewrite (compareBuckets_same_date y z) by done.
    rewrite !compareBuckets_other_date by congruence.
    rewrite Eyz. auto.
  - rewrite (compareBuckets_other_date x y), (compareBuckets_other_date y z) by done.
    intros H1 H2. destruct (decide (date x = date z)) as [Exz|Exz].
    + (* x and z share a date that brackets the date of y *)
      exfalso. apply Exy. apply dates_distinguished; [done..|].
      rewrite <-Exz in H2. pose proof (localeCompare_antisym (date x) (date y)).
      lia.
    + rewrite compareBuckets_other_date by done.
      by apply (localeCompare_trans _ (date y)).
Qed.

Definition sortedItems : list AggBucket := JsArray.sort compareBuckets items.

Lemma sortedItems_sorted : StronglySorted (JsArray.inOrder compareBuckets) sortedItems.
Proof.
  apply (sort_sorted compareBuckets (fun b => b ∈ items)).
  - apply compareBuckets_total.
  - apply compareBuckets_trans.
  - by apply Forall_forall.
Qed.

Lemma datedOn_sorted (d : string) :
  StronglySorted (JsArray.inOrder compareNetworks) (datedOn d sortedItems).
Proof.
  apply (StronglySorted_weaken (JsArray.inOrder compareBuckets)).
  - intros x y Hx Hy. unfold datedOn in Hx, Hy.
    apply list_elem_of_filter in Hx as [Hx _].
    apply list_elem_of_filter in Hy as [Hy _].
    unfold JsArray.inOrder. by rewrite compareBuckets_same_date by congruence.
  - apply StronglySorted_filter, sortedItems_sorted.
Qed.

Definition dateGroups : list (string * list AggBucket) :=
  JsArray.sort compareEntries (groupByDate sortedItems).

Lemma dateGroups_entries (g : string * list AggBucket) :
  g ∈ dateGroups <-> g.2 = datedOn g.1 sortedItems /\ g.2 ≠ [].
Proof.
  unfold dateGroups. rewrite sort_perm. destruct g as [d bs].
  apply groupByDate_entries.
Qed.

Lemma dateGroups_keys (d : string) :
  d ∈ dateGroups.*1 <-> exists b, b ∈ items /\ date b = d.
Proof.
  rewrite list_elem_of_fmap. split.
  - intros ([d' bs] & -> & Hg). apply dateGroups_entries in Hg as [Hbs Hne].
    simpl in *. destruct bs as [|b bs]; [done|]. exists b.
    assert (Hb : b ∈ datedOn d' sortedItems) by (rewrite <-Hbs; by left).
    apply list_elem_of_filter in Hb as [Hd Hb].
    unfold sortedItems in Hb. rewrite sort_perm in Hb. done.
  - intros (b & Hb & <-). exists (date b, datedOn (date b) sortedItems).
    split; [done|]. apply dateGroups_entries. split; [done|].
    intros Hnil. apply (filter_nil_not_elem_of _ _ b) in Hnil; [|done].
    apply Hnil. unfold sortedItems. by rewrite sort_perm.
Qed.

Lemma dateGroups_ascending :
  StronglySorted (fun g g' => (localeCompare g.1 g'.1 < 0)%Z) dateGroups.
Proof.
  assert (Hs : StronglySorted (JsArray.inOrder compareEntries) dateGroups).
  { apply (sort_sorted compareEntries (fun _ => True)).
    - intros x y _ _. apply localeCompare_total.
    - intros x y z _ _ _. apply localeCompare_trans.
    - by apply Forall_forall. }
  assert (Hnd : NoDup dateGroups.*1).
  { unfold dateGroups. rewrite sort_perm. apply groupByDate_NoDup. }
  assert (Hk : forall g, g ∈ dateGroups -> exists b, b ∈ items /\ date b = g.1).
  { intros g Hg. apply dateGroups_keys, list_elem_of_fmap. by exists g. }
  revert Hs Hnd Hk. generalize dateGroups as l.
  induction 1 as [|g l Hs IH Hall]; intros Hnd Hk; [constructor|].
  rewrite fmap_cons in Hnd. apply NoDup_cons in Hnd as [Hg Hnd].
  constructor.
  - apply IH; [done|]. intros g' Hg'. apply Hk. by right.
  - rewrite Forall_forall in Hall |- *. intros g' Hg'.
    pose proof (Hall g' Hg') as Hle. unfold JsArray.inOrder, compareEntries in Hle.
    destruct (decide (localeCompare g.1 g'.1 = 0%Z)) as [E|E]; [|lia].
    exfalso. apply Hg.
    destruct (Hk g) as (b & Hb & Hbd); [by left|].
    destruct (Hk g') as (b' & Hb' & Hbd'); [by right|].
    rewrite <-Hbd, <-Hbd' in E. apply dates_distinguished in E; [|done..].
    rewrite <-Hbd, E, Hbd'. apply list_elem_of_fmap. by exists g'.
Qed.

End ConsistentCollation.

(** C2. With daily subtotals and the grand total both requested, and
    [localeCompare] a consistent order that tells the bucket dates apart,
    the output is, for the dates of the buckets in strictly ascending
    order (each date once), the subtotal row of the date (time = the date,
    network blank, values = the merge of the date's buckets) followed by
    the date's detail rows in ascending network order, their time cell
    blank when [blankDateForDetailRowsWhenSubtotalEnabled] is true or
    absent and the date otherwise; and after them one last row, the grand
    total (time = the label, network blank), merged from all buckets. *)
Theorem subtotals_details_and_grand_total
    (buckets : list (string * AggBucket)) (blank : option bool)
    (collation_antisym :
       forall a b, Z.sgn (localeCompare b a) = (- Z.sgn (localeCompare a b))%Z)
    (collation_trans :
       forall a b c,
         (localeCompare a b <= 0)%Z -> (localeCompare b c <= 0)%Z ->
         (localeCompare a c <= 0)%Z)
    (dates_distinguished :
       forall b1 b2, b1 ∈ JsMap.values buckets -> b2 ∈ JsMap.values buckets ->
         localeCompare (date b1) (date b2) = 0%Z -> date b1 = date b2) :
  let items := JsMap.values buckets in
  let options := Some (mkOptions (Some true) (Some true) blank) in
  let blankDate := default true blank in
  exists (groups : list (string * list AggBucket)) (all : list AggBucket),
    buildOutputRows buckets options
    = (flat_map (subtotalThenDetails blankDate) groups ++
       [toOutputRow (foldl mergeBucket (createEmptyBucket "" "") all)
          (Some GRAND_TOTAL_LABEL) (Some "")])%list /\
    all ≡ₚ items /\
    StronglySorted (fun g g' => (localeCompare g.1 g'.1 < 0)%Z) groups /\
    (forall d, d ∈ groups.*1 <-> exists b, b ∈ items /\ date b = d) /\
    Forall (fun g =>
              g.2 ≡ₚ datedOn g.1 items /\
              StronglySorted (JsArray.inOrder compareNetworks) g.2) groups /\
    (forall (item : AggBucket) (t n : string),
       r_time (toOutputRow item (Some t) (Some n)) = t /\
       r_network (toOutputRow item (Some t) (Some n)) = n).
Proof.
  intros items options blankDate.
  exists (dateGroups items), (sortedItems items).
  assert (Hgroups : Forall (fun g =>
            g.2 ≡ₚ datedOn g.1 items /\
            StronglySorted (JsArray.inOrder compareNetworks) g.2) (dateGroups items)).
  { apply Forall_forall. intros g Hg. apply dateGroups_entries in Hg as [-> _].
    split.
    - unfold datedOn, sortedItems. by rewrite sort_perm.
    - by apply datedOn_sorted. }
  split; [|split; [|split; [|split; [|split]]]].
  - unfold buildOutputRows. subst options. cbn [optionFlag].
    cbn [includeDailySubtotalRows includeGrandTotalRow
         blankDateForDetailRowsWhenSubtotalEnabled from_option id negb].
    f_equal. apply flat_map_dateGroupRows.
    eapply Forall_impl; [exact Hgroups|]. by intros g [_ ?].
  - apply sort_perm.
  - by apply dateGroups_ascending.
  - apply dateGroups_keys.
  - exact Hgroups.
  - done.
Qed.

(** *** Output path *)

Lemma scanCandidates_spec (dir ext fileName : string) (fuel : nat) (index : N) :
  (10000 <= index + N.of_nat fuel)%N ->
  match scanCandidates dir ext fileName fuel index with
  | Some candidate =>
      exists i : N,
        (index <= i < 10000)%N /\
        candidate = numberedPath dir ext fileName i /\
        existsSync candidate = false /\
        forall j : N, (index <= j < i)%N ->
          existsSync (numberedPath dir ext fileName j) = true
  | None =>
      forall j : N, (index <= j < 10000)%N ->
        existsSync (numberedPath dir ext fileName j) = true
  end.
Proof.
  revert index. induction fuel as [|fuel IH]; intros index Hfuel.
  - simpl. intros j Hj. lia.
  - simpl. destruct (index <? 10000)%N eqn:Hlt.
    + apply N.ltb_lt in Hlt.
      destruct (existsSync (numberedPath dir ext fileName index)) eqn:Hex; simpl.
      * specialize (IH (index + 1)%N). 
        assert (Hfuel' : (10000 <= index + 1 + N.of_nat fuel)%N) by lia.
        specialize (IH Hfuel').
        destruct (scanCandidates dir ext fileName fuel (index + 1)) as [c|].
        -- destruct IH as (i & Hi & -> & Hfree & Hbefore).
           exists i. split; [lia|]. split; [done|]. split; [done|].
           intros j Hj. destruct (decide (j = index)) as [->|Hne]; [done|].
           apply Hbefore. lia.
        -- intros j Hj. destruct (decide (j = index)) as [->|Hne]; [done|].
           apply IH. lia.
      * exists index. split; [lia|]. split; [done|]. split; [done|].
        intros j Hj. lia.
    + apply N.ltb_ge in Hlt. intros j Hj. lia.
Qed.

(** The three ways [getNextAvailableOutputPath] ends. *)
Lemma getNextAvailableOutputPath_cases (inputPath : string) :
  let dir := (getOutputBasePath inputPath).1.1 in
  let ext := (getOutputBasePath inputPath).1.2 in
  let fileName := (getOutputBasePath inputPath).2 in
  let firstPath := join dir (fileName ++ "-统计" ++ ext) in
  let chosen := getNextAvailableOutputPath inputPath in
  (chosen = firstPath /\ existsSync chosen = false) \/
  (exists i : N,
     (1 <= i < 10000)%N /\ chosen = numberedPath dir ext fileName i /\
     existsSync chosen = false /\ existsSync firstPath = true /\
     forall j : N, (1 <= j < i)%N ->
       existsSync (numberedPath dir ext fileName j) = true) \/
  (chosen = numberedPath dir ext fileName now /\
   existsSync firstPath = true /\
   forall j : N, (1 <= j < 10000)%N ->
     existsSync (numberedPath dir ext fileName j) = true).
Proof.
  intros dir ext fileName firstPath chosen.
  subst chosen. unfold getNextAvailableOutputPath.
  destruct (getOutputBasePath inputPath) as [[dir' ext'] fileName'] eqn:Hbase.
  subst dir ext fileName firstPath. cbn [fst snd].
  destruct (existsSync (join dir' (fileName' ++ "-统计" ++ ext'))) eqn:Hfirst;
    simpl negb; cbv iota; [|by left].
  right.
  pose proof (scanCandidates_spec dir' ext' fileName' (N.to_nat 10000) 1) as Hscan.
  destruct (scanCandidates dir' ext' fileName' (N.to_nat 10000) 1) as [c|].
  - destruct Hscan as (i & Hi & -> & Hfree & Hbefore); [lia|].
    left. by exists i.
  - right. split; [done|]. split; [done|]. apply Hscan. lia.
Qed.

(** The earlier revision never selects an existing path either, but it
    answers a collision with an error instead of a fresh name. *)
Lemma outputPathOrAbort_spec (inputPath : string) :
  match outputPathOrAbort inputPath with
  | inl code => code = OUTPUT_EXISTS /\ existsSync (getOutputPath inputPath) = true
  | inr path => path = getOutputPath inputPath /\ existsSync path = false
  end.
Proof.
  unfold outputPathOrAbort.
  by destruct (existsSync (getOutputPath inputPath)) eqn:E.
Qed.

(** C3 (as the code has it). The path [getNextAvailableOutputPath] selects
    is the first of the base name "-统计", then "-统计(1)" ... "-统计(9999)",
    that is not on disk, and then it does not exist when selected; when
    all ten thousand exist, it is the name with the timestamp, returned
    without looking at the disk.  The function always returns a path:
    a collision is never answered with an error.  (The earlier revision
    selects the base name only, and answers a collision with
    [OUTPUT_EXISTS].) *)
Theorem getNextAvailableOutputPath_selection (inputPath : string) :
  let dir := (getOutputBasePath inputPath).1.1 in
  let ext := (getOutputBasePath inputPath).1.2 in
  let fileName := (getOutputBasePath inputPath).2 in
  let firstPath := join dir (fileName ++ "-统计" ++ ext) in
  let chosen := getNextAvailableOutputPath inputPath in
  ((chosen = firstPath /\ existsSync chosen = false) \/
   (exists i : N,
      (1 <= i < 10000)%N /\ chosen = numberedPath dir ext fileName i /\
      existsSync chosen = false /\ existsSync firstPath = true /\
      forall j : N, (1 <= j < i)%N ->
        existsSync (numberedPath dir ext fileName j) = true) \/
   (chosen = numberedPath dir ext fileName now /\
    existsSync firstPath = true /\
    forall j : N, (1 <= j < 10000)%N ->
      existsSync (numberedPath dir ext fileName j) = true)) /\
  ((existsSync firstPath = false \/
    exists j : N, (1 <= j < 10000)%N /\
      existsSync (numberedPath dir ext fileName j) = false) ->
   existsSync chosen = false) /\
  match outputPathOrAbort inputPath with
  | inl code => code = OUTPUT_EXISTS /\ existsSync (getOutputPath inputPath) = true
  | inr path => path = getOutputPath inputPath /\ existsSync path = false
  end.
Proof.
  intros dir ext fileName firstPath chosen.
  pose proof (getNextAvailableOutputPath_cases inputPath) as Hcases.
  cbv zeta in Hcases. fold dir ext fileName firstPath chosen in Hcases.
  split; [exact Hcases|]. split; [|apply outputPathOrAbort_spec].
  intros Hfree.
  destruct Hcases as [[_ H]|[(i & _ & _ & H & _)|(_ & Hfirst & Hall)]]; [done..|].
  destruct Hfree as [Hf|(j & Hj & Hf)]; [congruence|].
  rewrite Hall in Hf by done. discriminate.
Qed.

End CsvService.

(** ** Merging buckets *)

Module Ieee.

Lemma SFadd_comm (prec emax : Z) (x y : spec_float) :
  SFadd prec emax x y = SFadd prec emax y x.
Proof.
  destruct x as [sx|sx| |sx mx ex], y as [sy|sy| |sy my ey];
    try reflexivity; try (destruct sx, sy; reflexivity).
  unfold SFadd. rewrite (Z.min_comm ex ey). f_equal. apply Z.add_comm.
Qed.

(** Addition of doubles is commutative. *)
Lemma add_comm (x y : float) : (x + y)%float = (y + x)%float.
Proof. apply Prim2SF_inj. rewrite !add_spec. apply SFadd_comm. Qed.

Lemma SFadd_zero_l (prec emax : Z) (x y : spec_float) :
  SFadd prec emax (SFadd prec emax (S754_zero false) x) y
  = SFadd prec emax (SFadd prec emax (S754_zero false) y) x.
Proof.
  destruct x as [sx|sx| |sx mx ex], y as [sy|sy| |sy my ey];
    try reflexivity; try (destruct sx, sy; reflexivity);
    try (destruct sx; reflexivity); try (destruct sy; reflexivity).
  apply SFadd_comm.
Qed.

(** Two numbers added to a fresh zero give the same sum in either order. *)
Lemma zero_add_add (x y : float) : (0 + x + y)%float = (0 + y + x)%float.
Proof.
  apply Prim2SF_inj. rewrite !add_spec.
  change (Prim2SF 0) with (S754_zero false). apply SFadd_zero_l.
Qed.

End Ieee.

(** Two buckets have the same totals: all eighteen sums and counts agree. *)
Definition sameTotals (b1 b2 : AggBucket) : Prop :=
  forall k : BucketKey, getKey b1 k = getKey b2 k.

(** A bucket whose only observation is a traffic value. *)
Definition trafficBucket (day net : string) (flow : float) : AggBucket :=
  setKey (createEmptyBucket day net) K_flowSum flow.

(** C6 (as the code has it). [mergeBucket] adds every sum and every count
    field by field, and this addition of doubles is commutative: merging [a]
    into [b] and [b] into [a] give the same totals, and a subtotal merged
    from two buckets is the same bucket in either order. *)
Theorem mergeBucket_commutative (a b : AggBucket) (day net : string) :
  sameTotals (mergeBucket a b) (mergeBucket b a) /\
  foldl mergeBucket (createEmptyBucket day net) [a; b]
  = foldl mergeBucket (createEmptyBucket day net) [b; a] /\
  (forall k : BucketKey,
     getKey (mergeBucket a b) k = (getKey a k + getKey b k)%float) /\
  date (mergeBucket a b) = date a /\ network (mergeBucket a b) = network a.
Proof.
  split; [|split; [|split; [|done]]].
  - intros k. destruct k; apply Ieee.add_comm.
  - cbn [foldl]. unfold mergeBucket, createEmptyBucket.
    cbn [date network flowSum maxUserSum ulPrbSum ulPrbCount dlPrbSum dlPrbCount
         ulRateSum ulRateCount dlRateSum dlRateCount accessRateSum accessRateCount
         dropRateSum dropRateCount handoverRateSum handoverRateCount
         interferenceSum interferenceCount].
    f_equal; apply Ieee.zero_add_add.
  - intros k. by destruct k.
Qed.

(** ** Reference instances of the platform functions

    Executable instances of the parameters of [CsvService], used to run the
    model on concrete files: the number conversions follow ECMA-262; the
    collation, dayjs and path functions cover the fragment named in their
    comments, which contains the inputs of the examples below. *)

Module Reference.

(** The value of a digit of [radix] (up to 16). *)
Definition digitOf (radix : Z) (c : ascii) : option Z :=
  let n := Z.of_N (N_of_ascii c) in
  let v :=
    if ((48 <=? n) && (n <=? 57))%Z then (n - 48)%Z
    else if ((97 <=? n) && (n <=? 102))%Z then (n - 87)%Z
    else if ((65 <=? n) && (n <=? 70))%Z then (n - 55)%Z
    else 99%Z in
  if (v <? radix)%Z then Some v else None.

(** The digits [s] starts with, in [radix]: their value on top of [acc],
    how many they are, and what follows them. *)
Fixpoint readDigits (radix : Z) (s : string) (acc : Z) (count : nat) : Z * nat * string :=
  match s with
  | String c s' =>
      match digitOf radix c with
      | Some d => readDigits radix s' (acc * radix + d)%Z (S count)
      | None => (acc, count, s)
      end
  | EmptyString => (acc, count, s)
  end.

(** The double nearest to [m * 2^e], ties to even. *)
Definition ofScaled (m e : Z) : float := SF2Prim (binary_normalize prec emax m e false).

(** The double nearest to [num / den] ([num >= 0], [den > 0]), ties to even:
    the quotient is taken to 64 bits and more, with a sticky last bit. *)
Definition roundRational (num den : Z) : float :=
  if (num =? 0)%Z then 0%float
  else
    let p := Z.max 0 (64 + Z.log2 den - Z.log2 num) in
    let q := (num * 2 ^ p / den)%Z in
    let r := ((num * 2 ^ p) mod den)%Z in
    ofScaled (2 * q + (if (r =? 0)%Z then 0 else 1)) (- (p + 1)).

(** [m * 10^e10] as a double ([m >= 0]). *)
Definition ofDecimal (m e10 : Z) : float :=
  if (m =? 0)%Z then 0%float
  else if (400 <? e10)%Z then infinity
  else if (e10 + Z.log2 m <? -1200)%Z then 0%float
  else if (0 <=? e10)%Z then roundRational (m * 10 ^ e10) 1
  else roundRational m (10 ^ (- e10)).

Definition readSign (s : string) : bool * string :=
  match s with
  | String "-" r => (true, r)
  | String "+" r => (false, r)
  | _ => (false, s)
  end.

(** [ExponentPart] or nothing, to the end of the string. *)
Definition readExponent (s : string) : option Z :=
  match s with
  | EmptyString => Some 0%Z
  | String c r =>
      if Ascii.eqb c "e" || Ascii.eqb c "E" then
        let signed := readSign r in
        let ds := readDigits 10 signed.2 0 0 in
        if (ds.1.2 =? 0)%nat || negb (isEmpty ds.2) then None
        else Some (if signed.1 then - ds.1.1 else ds.1.1)%Z
      else None
  end.

Definition unsignedDecimal (body : string) : float :=
  if String.eqb body "Infinity" then infinity
  else
    let int := readDigits 10 body 0 0 in
    let frac :=
      match int.2 with
      | String "." r => readDigits 10 r int.1.1 0
      | _ => (int.1.1, 0%nat, int.2)
      end in
    if ((int.1.2 =? 0)%nat && (frac.1.2 =? 0)%nat) then nan
    else
      match readExponent frac.2 with
      | Some e => ofDecimal frac.1.1 (e - Z.of_nat frac.1.2)
      | None => nan
      end.

Definition nonDecimal (radix : Z) (digits : string) : float :=
  let ds := readDigits radix digits 0 0 in
  if (ds.1.2 =? 0)%nat || negb (isEmpty ds.2) then nan else ofScaled ds.1.1 0.

(** [Number(s)]: StringToNumber of ECMA-262.  Surrounding white space is
    dropped, the empty string is 0, a literal is decimal (sign, digits,
    point, exponent, or Infinity) or 0x / 0o / 0b digits, anything else is
    NaN; the value is rounded to the nearest double, ties to even. *)
Definition Number (s : string) : float :=
  let text := trim s in
  match text with
  | EmptyString => 0%float
  | String "0" (String "x" r) | String "0" (String "X" r) => nonDecimal 16 r
  | String "0" (String "o" r) | String "0" (String "O" r) => nonDecimal 8 r
  | String "0" (String "b" r) | String "0" (String "B" r) => nonDecimal 2 r
  | _ =>
      let signed := readSign text in
      let magnitude := unsignedDecimal signed.2 in
      if signed.1 then (- magnitude)%float else magnitude
  end.

(** A positive double as the fraction [num / den]. *)
Definition fraction (m : positive) (e : Z) : Z * Z :=
  if (0 <=? e)%Z then (Zpos m * 2 ^ e, 1)%Z else (Zpos m, 2 ^ (- e))%Z.

(** [x * 10^(-t)] as a fraction, for [x = num/den]. *)
Definition scaled (x : Z * Z) (t : Z) : Z * Z :=
  if (0 <=? t)%Z then (x.1, x.2 * 10 ^ t)%Z else (x.1 * 10 ^ (- t), x.2)%Z.

(** The least [n] from [n0] on with [x < 10^n]. *)
Fixpoint integerDigits (fuel : nat) (x : Z * Z) (n : Z) : Z :=
  match fuel with
  | O => n
  | S fuel' =>
      let y := scaled x n in
      if (y.1 <? y.2)%Z then n else integerDigits fuel' x (n + 1)
  end.

Definition decimalExponent (m : positive) (e : Z) : Z :=
  let estimate := ((Z.log2 (Zpos m) + e) * 30103 / 100000 - 2)%Z in
  integerDigits 8 (fraction m e) estimate.

(** The candidates with [k] digits for a double [x] of [n] integer digits:
    [x / 10^(n-k)] rounded down and up, as (n, s); the one that reads back
    as [x] and is nearest to it, the even one on a tie. *)
Definition candidate (x : float) (m : positive) (e : Z) (n k : Z) : option (Z * Z) :=
  let y := scaled (fraction m e) (n - k) in
  let lo := (y.1 / y.2)%Z in
  let hi := (lo + 1)%Z in
  let back s := (ofDecimal s (n - k) =? x)%float in
  let dlo := (y.1 - lo * y.2)%Z in
  let dhi := (hi * y.2 - y.1)%Z in
  let up := if (hi =? 10 ^ k)%Z then (n + 1, 10 ^ (k - 1))%Z else (n, hi) in
  match back lo, back hi with
  | true, true =>
      if (dlo <? dhi)%Z then Some (n, lo)
      else if (dhi <? dlo)%Z then Some up
      else if Z.even lo then Some (n, lo) else Some up
  | true, false => Some (n, lo)
  | false, true => Some up
  | false, false => None
  end.

Fixpoint shortestDigits (fuel : nat) (x : float) (m : positive) (e : Z) (n k : Z)
    : Z * Z * Z :=
  match candidate x m e n k with
  | Some (n', s) => (n', k, s)
  | None =>
      match fuel with
      | O => (n, k, 0%Z)
      | S fuel' => shortestDigits fuel' x m e n (k + 1)
      end
  end.

Definition zeros (n : Z) : string := string_of_list_ascii (repeat "0"%char (Z.to_nat n)).

Definition showZ (z : Z) : string := ofN (Z.to_N z).

(** The text of a positive double from its shortest digits [s] ([k] of
    them) and its decimal exponent [n]. *)
Definition layout (n k s : Z) : string :=
  let digits := showZ s in
  if ((k <=? n) && (n <=? 21))%Z then digits ++ zeros (n - k)
  else if ((0 <? n) && (n <=? 21))%Z then
    substring 0 (Z.to_nat n) digits ++ "." ++ substring (Z.to_nat n) (Z.to_nat (k - n)) digits
  else if ((-6 <? n) && (n <=? 0))%Z then "0." ++ zeros (- n) ++ digits
  else
    let exponent := (if (0 <=? n - 1)%Z then "+" else "-") ++ showZ (Z.abs (n - 1)) in
    if (k =? 1)%Z then digits ++ "e" ++ exponent
    else substring 0 1 digits ++ "." ++ substring 1 (Z.to_nat (k - 1)) digits
         ++ "e" ++ exponent.

(** [y.toString()]: the fewest digits that read back as [y], laid out as
    Number::toString does. *)
Definition numToString (y : float) : string :=
  match Prim2SF y with
  | S754_nan => "NaN"
  | S754_infinity s => if s then "-Infinity" else "Infinity"
  | S754_zero _ => "0"
  | S754_finite s m e =>
      let r := shortestDigits 17 (abs y) m e (decimalExponent m e) 1 in
      (if s then "-" else "") ++ layout r.1.1 r.1.2 r.2
  end.

(** [x.toFixed(digits)]: the integer nearest to [x * 10^digits] (the larger
    one on a tie) with the point put back; [toString] from 1e21 on. *)
Definition toFixed (x : float) (digits : N) : string :=
  match Prim2SF x with
  | S754_finite s m e =>
      if (abs x <? 0x1.b1ae4d6e2ef5p+69)%float then
        let f := Z.of_N digits in
        let y := scaled (fraction m e) (- f) in
        let n := ((2 * y.1 + y.2) / (2 * y.2))%Z in
        let ds := showZ n in
        let padded := zeros (f + 1 - Z.of_nat (String.length ds)) ++ ds in
        let len := String.length padded in
        (if s then "-" else "") ++
        (if (f =? 0)%Z then padded
         else substring 0 (len - Z.to_nat f) padded ++ "." ++
              substring (len - Z.to_nat f) (Z.to_nat f) padded)
      else numToString x
  | S754_zero _ =>
      if (digits =? 0)%N then "0" else "0." ++ zeros (Z.of_N digits)
  | _ => numToString x
  end.

(** [a.localeCompare(b)] as the order of the bytes: the order of
    [localeCompare] on strings of ASCII digits and punctuation, such as
    the dates. *)
Definition localeCompare (a b : string) : Z :=
  match String.compare a b with
  | Lt => (-1)%Z
  | Eq => 0%Z
  | Gt => 1%Z
  end.

Lemma localeCompare_antisym (a b : string) :
  Z.sgn (localeCompare b a) = (- Z.sgn (localeCompare a b))%Z.
Proof.
  unfold localeCompare. rewrite (String.compare_antisym a b).
  by destruct (String.compare b a).
Qed.

Lemma localeCompare_le (a b : string) :
  (localeCompare a b <= 0)%Z <-> String.le a b.
Proof.
  unfold localeCompare, String.le, String.leb.
  destruct (String.compare a b); simpl; split; intros H; try done; lia.
Qed.

Lemma localeCompare_trans (a b c : string) :
  (localeCompare a b <= 0)%Z -> (localeCompare b c <= 0)%Z ->
  (localeCompare a c <= 0)%Z.
Proof. rewrite !localeCompare_le. apply transitivity. Qed.

Lemma localeCompare_eq (a b : string) : localeCompare a b = 0%Z -> a = b.
Proof.
  unfold localeCompare.
  destruct (String.compare a b) eqn:E; intros H; try discriminate H.
  by apply String.compare_eq_iff.
Qed.

(** dayjs in strict mode: the input must spell the pattern exactly
    (YYYY four digits, MM DD HH mm ss two digits, anything else
    literally) and name a real date and time of day. *)
Record Clock := mkClock { year : N; month : N; day : N; hour : N; minute : N; second : N }.

Fixpoint takeDigits (n : nat) (s : string) (acc : N) : option (N * string) :=
  match n with
  | O => Some (acc, s)
  | S n' =>
      match s with
      | String c s' =>
          match digitOf 10 c with
          | Some d => takeDigits n' s' (acc * 10 + Z.to_N d)%N
          | None => None
          end
      | EmptyString => None
      end
  end.

Definition tokens : list (string * nat * (N -> Clock -> Clock)) :=
  [ ("YYYY", 4%nat, fun v c => mkClock v (month c) (day c) (hour c) (minute c) (second c));
    ("MM", 2%nat, fun v c => mkClock (year c) v (day c) (hour c) (minute c) (second c));
    ("DD", 2%nat, fun v c => mkClock (year c) (month c) v (hour c) (minute c) (second c));
    ("HH", 2%nat, fun v c => mkClock (year c) (month c) (day c) v (minute c) (second c));
    ("mm", 2%nat, fun v c => mkClock (year c) (month c) (day c) (hour c) v (second c));
    ("ss", 2%nat, fun v c => mkClock (year c) (month c) (day c) (hour c) (minute c) v) ].

Fixpoint findToken (ts : list (string * nat * (N -> Clock -> Clock))) (pattern : string)
    : option (nat * (N -> Clock -> Clock) * string) :=
  match ts with
  | [] => None
  | (name, width, put) :: ts' =>
      match dropPrefix name pattern with
      | Some rest => Some (width, put, rest)
      | None => findToken ts' pattern
      end
  end.

Fixpoint scan (fuel : nat) (pattern input : string) (c : Clock) : option Clock :=
  match fuel with
  | O => None
  | S fuel' =>
      match pattern with
      | EmptyString => if isEmpty input then Some c else None
      | String p pattern' =>
          match findToken tokens pattern with
          | Some (width, put, rest) =>
              match takeDigits width input 0 with
              | Some (v, input') => scan fuel' rest input' (put v c)
              | None => None
              end
          | None =>
              match input with
              | String i input' =>
                  if Ascii.eqb p i then scan fuel' pattern' input' c else None
              | EmptyString => None
              end
          end
      end
  end.

Definition leapYear (y : N) : bool :=
  ((y mod 4 =? 0) && negb (y mod 100 =? 0) || (y mod 400 =? 0))%N.

Definition daysInMonth (y m : N) : N :=
  match m with
  | 2 => if leapYear y then 29 else 28
  | 4 | 6 | 9 | 11 => 30
  | _ => 31
  end%N.

Definition validClock (c : Clock) : bool :=
  ((100 <=? year c) && (1 <=? month c) && (month c <=? 12) &&
   (1 <=? day c) && (day c <=? daysInMonth (year c) (month c)) &&
   (hour c <=? 23) && (minute c <=? 59) && (second c <=? 59))%N.

Definition dayjsStrict (raw pattern : string) : option Dayjs :=
  match scan (S (String.length pattern)) pattern raw (mkClock 0 1 1 0 0 0) with
  | Some c => if validClock c then Some (mkDayjs (year c) (month c) (day c)) else None
  | None => None
  end.

(** [dayjs(raw)] without a pattern, on strings that are no dates at all
    (the only ones that reach it in the examples): invalid. *)
Definition dayjsAuto (raw : string) : option Dayjs := None.

(** node:path for POSIX paths without trailing or doubled separators. *)
Fixpoint splitLastFrom (c : ascii) (s front : string) (found : option (string * string))
    : option (string * string) :=
  match s with
  | EmptyString => found
  | String a s' =>
      splitLastFrom c s' (front ++ String a "")
        (if Ascii.eqb a c then Some (front, s') else found)
  end.

(** [s] cut at the last [c]: what stands before and after it. *)
Definition splitLast (c : ascii) (s : string) : option (string * string) :=
  splitLastFrom c s "" None.

Definition lastSegment (path : string) : string :=
  match splitLast "/" path with
  | Some (_, name) => name
  | None => path
  end.

Definition dirname (path : string) : string :=
  match splitLast "/" path with
  | Some (dir, _) => if isEmpty dir then "/" else dir
  | None => "."
  end.

Definition extname (path : string) : string :=
  match splitLast "." (lastSegment path) with
  | Some (stem, ext) => if isEmpty stem then "" else "." ++ ext
  | None => ""
  end.

Definition basename (path suffix : string) : string :=
  let name := lastSegment path in
  if isEmpty suffix || String.eqb name suffix then name
  else
    match dropPrefix (String.rev suffix) (String.rev name) with
    | Some stem => String.rev stem
    | None => name
    end.

Definition join (dir name : string) : string := dir ++ "/" ++ name.

End Reference.

(** ** The model on concrete files *)

Module Scenario.

Import Reference.

(** The header of the test files: the fourteen required columns in their
    canonical order. *)
Definition header : list string :=
  [ "时间"; "CI"; "网络"; "小区名称"; "5G总流量(GB)"; "5G最大用户数";
    "5G上行PRB利用率(%)"; "5G下行PRB利用率(%)"; "5G上行体验速率(Mbps)";
    "5G下行体验速率(Mbps)"; "5G无线接通率(%)"; "5G无线掉线率(%)";
    "5G切换成功率(%)"; "5G上行平均干扰(dBm)" ].

Definition colIndex : ColIndex := mkColIndex 0 2 4 5 6 7 8 9 10 11 12 13.

Definition run (rows : list (list string)) : AggState :=
  parseDataRows Number dayjsStrict dayjsAuto colIndex rows.

Definition render (buckets : list (string * AggBucket))
    (options : option AggregationOutputOptions) : list OutputRow :=
  buildOutputRows Number toFixed numToString localeCompare buckets options.

(** The file of the test "skips row when date/network invalid and counts
    field invalids". *)
Definition dirty : list (list string) :=
  [ header;
    [ "not-a-date"; "ci1"; "NSA"; "小区A"; "10"; "100"; "20"; "30"; "40"; "50";
      "99.9"; "0.1"; "95"; "-110" ];
    [ "2025-01-01 01:00:00"; "ci2"; ""; "小区B"; "11"; "101"; "21"; "31"; "41";
      "51"; "98.9"; "0.2"; "94"; "-109" ];
    [ "2025-01-01 01:00:00"; "ci3"; "NSA"; "小区C"; "abc"; "xyz"; "xx"; "30";
      "40"; "50"; "99.9"; "0.1"; "95"; "-110" ] ].

(** The file of the test "supports Sheet1 style output with daily subtotal
    and grand total". *)
Definition sheet : list (list string) :=
  [ header;
    [ "2025-12-01 01:00:00"; "ci1"; "5G-2.6G"; "小区A"; "100"; "50"; "70"; "80";
      "60"; "120"; "99.9"; "0.1"; "98"; "-110" ];
    [ "2025-12-01 02:00:00"; "ci2"; "5G-2.6G"; "小区B"; "78.12"; "29"; "72";
      "84"; "64"; "122"; "99.8"; "0.2"; "97"; "-108" ];
    [ "2025-12-01 03:00:00"; "ci3"; "5G-700M"; "小区C"; "0.78"; "6"; "76"; "86";
      "66"; "124"; "99.7"; "0.3"; "96"; "-107" ];
    [ "2025-12-02 01:00:00"; "ci4"; "5G-2.6G"; "小区D"; "179.12"; "80"; "73";
      "83"; "63"; "123"; "99.6"; "0.4"; "95"; "-106" ];
    [ "2025-12-02 02:00:00"; "ci5"; "5G-700M"; "小区E"; "1.78"; "7"; "77"; "87";
      "67"; "125"; "99.5"; "0.5"; "94"; "-105" ] ].

Definition firstCells (r : OutputRow) : list string :=
  [r_time r; r_network r; r_flow r; r_maxUser r].

Example value_parsers :
  parseDateToDay dayjsStrict dayjsAuto "2025-01-01 12:20:11" = Some "2025-01-01" /\
  parseDateToDay dayjsStrict dayjsAuto "2025/01/02" = Some "2025-01-02" /\
  parseDateToDay dayjsStrict dayjsAuto "20250103" = Some "2025-01-03" /\
  parseDateToDay dayjsStrict dayjsAuto "not-a-date" = None /\
  parseNumeric Number (Some "1,234.56") = Some (Number "1234.56") /\
  parseNumeric Number (Some "88.8%") = Some (888 / 10)%float /\
  parseNumeric Number (Some "") = None /\
  parseNumeric Number (Some "abc") = None /\
  getOutputPath dirname extname basename join "D:/x/input.csv"
  = "D:/x/input-统计.csv".
Proof. vm_compute. repeat split. Qed.

Example dirty_file_counters :
  processedRows (run dirty) = 3%N /\
  skippedRows (run dirty) = 2%N /\
  invalidFieldStats (run dirty) !! "时间" = Some 1%N /\
  invalidFieldStats (run dirty) !! "网络" = Some 1%N /\
  invalidFieldStats (run dirty) !! "5G总流量(GB)" = Some 1%N /\
  invalidFieldStats (run dirty) !! "5G最大用户数" = Some 1%N /\
  invalidFieldStats (run dirty) !! "5G上行PRB利用率(%)" = Some 1%N /\
  invalidFieldStats (run dirty) !! "5G下行PRB利用率(%)" = Some 0%N /\
  (buckets (run dirty)).*1 = ["2025-01-01__NSA"].
Proof. vm_compute. repeat split. Qed.

Example sheet_style_output :
  firstCells <$> render (buckets (run sheet))
                   (Some (mkOptions (Some true) (Some true) (Some true)))
  = [ ["2025-12-01"; ""; "178.9"; "85"];
      [""; "5G-2.6G"; "178.12"; "79"];
      [""; "5G-700M"; "0.78"; "6"];
      ["2025-12-02"; ""; "180.9"; "87"];
      [""; "5G-2.6G"; "179.12"; "80"];
      [""; "5G-700M"; "1.78"; "7"];
      ["总计"; ""; "359.8"; "172"] ] /\
  firstCells <$> render (buckets (run sheet)) None
  = [ ["2025-12-01"; "5G-2.6G"; "178.12"; "79"];
      ["2025-12-01"; "5G-700M"; "0.78"; "6"];
      ["2025-12-02"; "5G-2.6G"; "179.12"; "80"];
      ["2025-12-02"; "5G-700M"; "1.78"; "7"] ].
Proof. vm_compute. repeat split. Qed.

(** A bucket no row gave a valid uplink PRB value: the cell is empty. *)
Example empty_average_cell :
  r_ulPrb <$> render (buckets (run dirty)) None = [""] /\
  r_dlPrb <$> render (buckets (run dirty)) None = ["30"].
Proof. vm_compute. repeat split. Qed.

(** A directory in which the first two names are taken. *)
Definition twoTaken (path : string) : bool :=
  String.eqb path "/data/in-统计.csv" || String.eqb path "/data/in-统计(1).csv".

Example third_name_is_chosen :
  getNextAvailableOutputPath dirname extname basename join twoTaken 0 "/data/in.csv"
  = "/data/in-统计(2).csv".
Proof. vm_compute. reflexivity. Qed.

End Scenario.

(** *** C7: an instance *)

Lemma formatAverage_zero_count :
  (0 <=? 0)%float = true /\
  formatAverage Reference.Number Reference.toFixed Reference.numToString 162 0 = "".
Proof.
  split; [reflexivity|].
  exact (proj1 (formatAverage_empty_without_observations
                  Reference.Number Reference.toFixed Reference.numToString
                  162 0 eq_refl)).
Defined.

(** *** C6: the order of merging

    Merging is not associative.  Three buckets of one date with traffic 0.1,
    0.2 and 0.3 give the subtotal 0.6000000000000001 merged in network order
    and 0.6 merged in the opposite order.  With traffic 2^53, 1 and 1 the two
    subtotals are 9007199254740992 and 9007199254740994, and so are the
    cells written to the output. *)
Lemma mergeBucket_order_changes_subtotal :
  let day := "2025-01-01" in
  let subtotal := foldl mergeBucket (createEmptyBucket day "") in
  let flowCell b :=
    r_flow (toOutputRow Reference.Number Reference.toFixed Reference.numToString
              b (Some day) (Some "")) in
  let a := trafficBucket day "A" (1 / 10) in
  let b := trafficBucket day "B" (2 / 10) in
  let c := trafficBucket day "C" (3 / 10) in
  let x := trafficBucket day "A" 9007199254740992 in
  let y := trafficBucket day "B" 1 in
  let z := trafficBucket day "C" 1 in
  flowSum (subtotal [a; b; c]) = 0x1.3333333333334p-1%float /\
  flowSum (subtotal [c; b; a]) = 0x1.3333333333333p-1%float /\
  (flowSum (subtotal [a; b; c]) =? flowSum (subtotal [c; b; a]))%float = false /\
  (flowSum (mergeBucket (mergeBucket a b) c)
   =? flowSum (mergeBucket a (mergeBucket b c)))%float = false /\
  flowSum (subtotal [x; y; z]) = 9007199254740992%float /\
  flowSum (subtotal [z; y; x]) = 9007199254740994%float /\
  flowCell (subtotal [x; y; z]) = "9007199254740992" /\
  flowCell (subtotal [z; y; x]) = "9007199254740994".
Proof. vm_compute. repeat split. Qed.

(** *** C5: the code against the narrower reading

    "5%5" has no trailing percent sign: the code removes the one inside and
    returns 55, where removing trailing signs only would leave a string that
    is not a number. *)
Lemma parseNumeric_removes_inner_percent :
  parseNumeric Reference.Number (Some "5%5") = Some 55%float /\
  parseNumericTrailingPercent Reference.Number (Some "5%5") = None /\
  parseNumericTrailingPercent Reference.Number (Some "88.8%")
  = parseNumeric Reference.Number (Some "88.8%").
Proof. vm_compute. repeat split. Qed.

(** *** C4: the keys of a run *)

Lemma invalidFieldStats_has_twelve_keys :
  size (invalidFieldStats (Scenario.run Scenario.dirty)) = 12%nat /\
  size (invalidFieldStats (Scenario.run [Scenario.header])) = 12%nat.
Proof. vm_compute. repeat split. Qed.

(** *** C3: a directory where every candidate is taken *)

Definition stamp : N := 1767225600000.

(** The base name, its 9999 numbered variants and the name with the
    timestamp. *)
Definition crowdedNames : list string :=
  "/data/in-统计.csv" :: "/data/in-统计(1767225600000).csv" ::
  ((fun i => numberedPath Reference.join "/data" ".csv" "in" (N.of_nat i))
     <$> seq 1 (N.to_nat 9999)).

Definition crowded (path : string) : bool := bool_decide (path ∈ crowdedNames).

Lemma crowded_base : crowded "/data/in-统计.csv" = true.
Proof. apply bool_decide_eq_true. unfold crowdedNames. by left. Qed.

(** On that disk the selected path exists; the earlier revision returns
    [OUTPUT_EXISTS] there. *)
Lemma getNextAvailableOutputPath_selects_existing :
  crowded
    (getNextAvailableOutputPath Reference.dirname Reference.extname
       Reference.basename Reference.join crowded stamp "/data/in.csv")
  = true /\
  getNextAvailableOutputPath Reference.dirname Reference.extname
    Reference.basename Reference.join crowded stamp "/data/in.csv"
  = "/data/in-统计(1767225600000).csv" /\
  outputPathOrAbort Reference.dirname Reference.extname Reference.basename
    Reference.join crowded "/data/in.csv"
  = inl OUTPUT_EXISTS.
Proof.
  pose proof (getNextAvailableOutputPath_cases
                Reference.dirname Reference.extname Reference.basename
                Reference.join crowded stamp "/data/in.csv") as H.
  assert (Hbase : getOutputBasePath Reference.dirname Reference.extname
                    Reference.basename "/data/in.csv" = ("/data", ".csv", "in"))
    by (vm_compute; reflexivity).
  cbv zeta in H. rewrite Hbase in H. cbn [fst snd] in H.
  assert (Hnumbered : forall i : N, (1 <= i < 10000)%N ->
            crowded (numberedPath Reference.join "/data" ".csv" "in" i) = true).
  { intros i Hi. apply bool_decide_eq_true. unfold crowdedNames.
    do 2 (apply elem_of_cons; right).
    apply list_elem_of_fmap. exists (N.to_nat i).
    split; [by rewrite N2Nat.id|]. apply elem_of_seq. lia. }
  assert (Hstamp : crowded (numberedPath Reference.join "/data" ".csv" "in" stamp) = true).
  { apply bool_decide_eq_true. unfold crowdedNames.
    apply elem_of_cons. right. apply elem_of_cons. left. reflexivity. }
  assert (Hfirst : crowded (Reference.join "/data" ("in" ++ "-统计" ++ ".csv")) = true)
    by exact crowded_base.
  assert (Hchosen :
    getNextAvailableOutputPath Reference.dirname Reference.extname
      Reference.basename Reference.join crowded stamp "/data/in.csv"
    = numberedPath Reference.join "/data" ".csv" "in" stamp).
  { destruct H as [[Heq Hfree]|[(i & Hi & Heq & Hfree & _)|(Heq & _)]].
    - rewrite Heq, Hfirst in Hfree. discriminate.
    - rewrite Heq, Hnumbered in Hfree by done. discriminate.
    - exact Heq. }
  split; [rewrite Hchosen; exact Hstamp|].
  split; [rewrite Hchosen; vm_compute; reflexivity|].
  unfold outputPathOrAbort, getOutputPath. rewrite Hbase.
  rewrite Hfirst. reflexivity.
Qed.

(** *** C2: an instance, the buckets of the sheet-style file *)

Lemma subtotals_details_and_grand_total_sheet :
  let localeCompare := Reference.localeCompare in
  let toOutputRow :=
    toOutputRow Reference.Number Reference.toFixed Reference.numToString in
  let buckets := buckets (Scenario.run Scenario.sheet) in
  let items := JsMap.values buckets in
  exists (groups : list (string * list AggBucket)) (all : list AggBucket),
    Scenario.render buckets (Some (mkOptions (Some true) (Some true) None))
    = (flat_map
         (subtotalThenDetails Reference.Number Reference.toFixed
            Reference.numToString true) groups ++
       [toOutputRow (foldl mergeBucket (createEmptyBucket "" "") all)
          (Some GRAND_TOTAL_LABEL) (Some "")])%list /\
    all ≡ₚ items /\
    StronglySorted (fun g g' => (localeCompare g.1 g'.1 < 0)%Z) groups /\
    (forall d, d ∈ groups.*1 <-> exists b, b ∈ items /\ date b = d) /\
    Forall (fun g =>
              g.2 ≡ₚ datedOn g.1 items /\
              StronglySorted
                (JsArray.inOrder (compareNetworks localeCompare)) g.2) groups /\
    (forall (item : AggBucket) (t n : string),
       r_time (toOutputRow item (Some t) (Some n)) = t /\
       r_network (toOutputRow item (Some t) (Some n)) = n).
Proof.
  exact (subtotals_details_and_grand_total
           Reference.Number Reference.toFixed Reference.numToString
           Reference.localeCompare
           (buckets (Scenario.run Scenario.sheet)) None
           Reference.localeCompare_antisym Reference.localeCompare_trans
           (fun b1 b2 _ _ => Reference.localeCompare_eq (date b1) (date b2))).
Defined.
